(** * PS2 Title ID to Title Renamer: a shallow embedding of [script.py]

    The script builds a serial-to-title mapping from a paginated catalog
    ([build_ps2_title_mapping], with [fetch_json] and [pick_title]) and then
    renames the files of the working directory ([rename_ps2_files], with
    [sanitize_filename]).

    Modelling choices, fixed once for the whole development:
    - a Python [str] is a [string]; its characters are the code points
      U+0000..U+00FF, a range closed under [str.lower] on which
      [str.isspace], the regular-expression classes and [str.strip] are
      written out below as CPython defines them;
    - a decoded JSON document is a [json] value; a method call or an
      iteration on a value of the wrong type raises, as in Python;
    - exceptions are the left summand of [result];
    - the network and the directory are interfaces ([Network],
      [FileSystem]) threaded as explicit state; console output is a list of
      [event]s.  [print], [iterdir] and [is_file] are taken to succeed. *)

From Stdlib Require Import ZArith NArith Lia Bool List Ascii String.
From stdpp Require Import base option strings gmap.
Import ListNotations.

Local Open Scope string_scope.
Local Open Scope bool_scope.

(** ** Python strings *)

Module PyStr.

Definition ord (c : ascii) : N := N_of_ascii c.

Definition in_range (lo hi : N) (c : ascii) : bool :=
  ((lo <=? ord c) && (ord c <=? hi))%N.

(** [str.isspace] on one character: U+0009..U+000D, U+001C..U+0020,
    U+0085 and U+00A0.  The class [\s] of [re] is the same set. *)
Definition isspace (c : ascii) : bool :=
  in_range 9 13 c || in_range 28 32 c || (ord c =? 133)%N || (ord c =? 160)%N.

(** [A-Z] and [\d] of [re]. *)
Definition isupper_AZ (c : ascii) : bool := in_range 65 90 c.
Definition isdigit (c : ascii) : bool := in_range 48 57 c.

(** [str.lower] on one character: A..Z and the capital letters
    U+00C0..U+00DE other than the multiplication sign U+00D7. *)
Definition lower_char (c : ascii) : ascii :=
  if in_range 65 90 c || (in_range 192 222 c && negb (ord c =? 215)%N)
  then ascii_of_N (ord c + 32) else c.

Fixpoint lower (s : string) : string :=
  match s with
  | "" => ""
  | String c s' => String (lower_char c) (lower s')
  end.

Fixpoint lstrip (s : string) : string :=
  match s with
  | "" => ""
  | String c s' => if isspace c then lstrip s' else s
  end.

Fixpoint rstrip (s : string) : string :=
  match s with
  | "" => ""
  | String c s' =>
      match rstrip s' with
      | "" => if isspace c then "" else String c ""
      | r => String c r
      end
  end.

(** [s.strip()] *)
Definition strip (s : string) : string := lstrip (rstrip s).

Fixpoint startswith (p s : string) : bool :=
  match p, s with
  | "", _ => true
  | String a p', String b s' => if ascii_dec a b then startswith p' s' else false
  | String _ _, "" => false
  end.

(** [sub in s] for two strings. *)
Fixpoint contains (sub s : string) : bool :=
  startswith sub s ||
  match s with
  | "" => false
  | String _ s' => contains sub s'
  end.

(** [s.rfind(c)], [None] for Python's -1. *)
Fixpoint rfind (c : ascii) (s : string) : option nat :=
  match s with
  | "" => None
  | String a s' =>
      match rfind c s' with
      | Some i => Some (S i)
      | None => if ascii_dec a c then Some 0 else None
      end
  end.

(** [s[:i]] and [s[i:]] for [0 <= i]. *)
Fixpoint take (i : nat) (s : string) : string :=
  match i, s with
  | S i', String c s' => String c (take i' s')
  | _, _ => ""
  end.

Fixpoint drop (i : nat) (s : string) : string :=
  match i, s with
  | S i', String _ s' => drop i' s'
  | _, _ => s
  end.

Fixpoint all (p : ascii -> bool) (s : string) : bool :=
  match s with
  | "" => true
  | String c s' => p c && all p s'
  end.

Fixpoint filter (p : ascii -> bool) (s : string) : string :=
  match s with
  | "" => ""
  | String c s' => if p c then String c (filter p s') else filter p s'
  end.

Definition is_empty (s : string) : bool :=
  match s with "" => true | _ => false end.

Definition head (s : string) : option ascii :=
  match s with "" => None | String c _ => Some c end.

Fixpoint last (s : string) : option ascii :=
  match s with
  | "" => None
  | String c "" => Some c
  | String _ s' => last s'
  end.

End PyStr.

(** ** The fragment of [re] the script uses

    One-character atoms (a literal, a class, [.]), the greedy star of such
    an atom, concatenation, and the anchors [^] and [$] without flags.  The
    matcher is the backtracking one of [re]: an atom's star tries the
    longest run first and gives characters back one at a time. *)

Module Re.

Inductive regex : Type :=
| Atom (p : ascii -> bool)
| Star (p : ascii -> bool)
| Seq (r1 r2 : regex)
| Bos
| Eos.

Definition lit (c : ascii) : ascii -> bool := fun a => if ascii_dec a c then true else false.

Definition newline : ascii := ascii_of_N 10.

(** [.] without DOTALL *)
Definition dot : ascii -> bool := fun a => negb (lit newline a).

Fixpoint repeat (n : nat) (p : ascii -> bool) (tl : regex) : regex :=
  match n with
  | 0 => tl
  | S n' => Seq (Atom p) (repeat n' p tl)
  end.

(** [$]: at the end of the string, or just before a newline that ends it. *)
Definition at_end (s : string) : bool :=
  match s with
  | "" => true
  | String c "" => lit newline c
  | _ => false
  end.

(** A continuation receives whether the position is still the start of the
    string, and the rest of the input; a match returns the input left
    after it. *)
Definition cont : Type := bool -> string -> option string.

Fixpoint star_greedy (p : ascii -> bool) (k : cont) (bos : bool) (s : string) : option string :=
  match s with
  | String c s' =>
      if p c then
        match star_greedy p k false s' with
        | Some rest => Some rest
        | None => k bos s
        end
      else k bos s
  | "" => k bos s
  end.

Fixpoint run (r : regex) (bos : bool) (s : string) (k : cont) : option string :=
  match r with
  | Atom p =>
      match s with
      | String c s' => if p c then k false s' else None
      | "" => None
      end
  | Star p => star_greedy p k bos s
  | Seq r1 r2 => run r1 bos s (fun b s' => run r2 b s' k)
  | Bos => if bos then k bos s else None
  | Eos => if at_end s then k bos s else None
  end.

(** The match of [r] that starts at the current position, as the input
    left after it. *)
Definition match_here (r : regex) (bos : bool) (s : string) : option string :=
  run r bos s (fun _ rest => Some rest).

(** [re.match(r, s)] as a truth value. *)
Definition re_match (r : regex) (s : string) : bool :=
  match match_here r true s with Some _ => true | None => false end.

(** [re.sub(r, '', s)]: every leftmost non-overlapping match is deleted.
    [skip] counts the characters of the current match still to delete.  A
    match of length zero deletes nothing and the scan moves on by one
    character. *)
Fixpoint sub_go (r : regex) (skip : nat) (bos : bool) (s : string) : string :=
  match s with
  | "" => ""
  | String c s' =>
      match skip with
      | S k => sub_go r k false s'
      | 0 =>
          match match_here r bos s with
          | Some rest =>
              match String.length s - String.length rest with
              | S k => sub_go r k false s'
              | 0 => String c (sub_go r 0 false s')
              end
          | None => String c (sub_go r 0 false s')
          end
      end
  end.

Definition re_sub_delete (r : regex) (s : string) : string := sub_go r 0 true s.

End Re.

(** ** The three patterns of the script *)

(** The class of [sanitize_filename]'s pattern: the nine characters
    U+003C, U+003E, U+003A, U+0022, U+002F, U+005C, U+007C, U+003F, U+002A
    (less-than, greater-than, colon, double quote, slash, backslash, bar,
    question mark, star). *)
Definition illegal_char (c : ascii) : bool :=
  match PyStr.ord c with
  | 60%N | 62%N | 58%N | 34%N | 47%N | 92%N | 124%N | 63%N | 42%N => true
  | _ => false
  end.

Definition illegal_re : Re.regex := Re.Atom illegal_char.

(** The pattern [\s*\(.*\)$] of [rename_ps2_files]. *)
Definition paren_suffix_re : Re.regex :=
  Re.Seq (Re.Star PyStr.isspace)
    (Re.Seq (Re.Atom (Re.lit "("))
       (Re.Seq (Re.Star Re.dot)
          (Re.Seq (Re.Atom (Re.lit ")")) Re.Eos))).

(** The pattern [^[A-Z]{4}-\d{5}$] of [rename_ps2_files]. *)
Definition serial_re : Re.regex :=
  Re.Seq Re.Bos
    (Re.repeat 4 PyStr.isupper_AZ
       (Re.Seq (Re.Atom (Re.lit "-"))
          (Re.repeat 5 PyStr.isdigit Re.Eos))).

(** ** [sanitize_filename] *)

Definition sanitize_filename (name : string) : string :=
  PyStr.strip (Re.re_sub_delete illegal_re name).

(** ** Exceptions and decoded JSON *)

Inductive exn : Type :=
| AttributeError      (* a method looked up on a value that has none *)
| TypeError           (* iteration or [in] on a value that supports neither *)
| ValueError          (* [with_name] on an invalid name *)
| OSError (msg : string)      (* a failed system call, [rename] here *)
| FetchError (msg : string).  (* whatever [fetch_json] raises: [Request], [urlopen],
                                 [decode] or [json.loads] failed *)

Definition result (A : Type) : Type := exn + A.

Definition Ok {A} (a : A) : result A := inr a.
Definition Raise {A} (e : exn) : result A := inl e.

Definition rbind {A B} (m : result A) (f : A -> result B) : result B :=
  match m with
  | inl e => inl e
  | inr a => f a
  end.

Notation "'let*' x := m 'in' k" := (rbind m (fun x => k))
  (at level 10, x name, m at level 100, k at level 200).

Set Warnings "-register-all".

(** What [json.loads] returns.  A [dict] is the list of its items in
    insertion order; lookup takes the first binding of a key.  Of a [float]
    the script can observe only whether it is zero. *)
Inductive json : Type :=
| JNull
| JBool (b : bool)
| JInt (z : Z)
| JFloat (is_zero : bool)
| JStr (s : string)
| JArr (l : list json)
| JObj (items : list (string * json)).

Module Py.

(** [bool(v)] *)
Definition truthy (v : json) : bool :=
  match v with
  | JNull => false
  | JBool b => b
  | JInt z => negb (z =? 0)%Z
  | JFloat is_zero => negb is_zero
  | JStr s => negb (PyStr.is_empty s)
  | JArr l => match l with [] => false | _ => true end
  | JObj items => match items with [] => false | _ => true end
  end.

(** [v or d] *)
Definition or_else (v d : json) : json := if truthy v then v else d.

Fixpoint assoc (k : string) (items : list (string * json)) : option json :=
  match items with
  | [] => None
  | (k', v) :: rest => if String.eqb k' k then Some v else assoc k rest
  end.

(** [v.get(k, d)]; only a [dict] has the method. *)
Definition get_default (v : json) (k : string) (d : json) : result json :=
  match v with
  | JObj items => Ok (match assoc k items with Some x => x | None => d end)
  | _ => Raise AttributeError
  end.

(** [v.get(k)] *)
Definition get (v : json) (k : string) : result json := get_default v k JNull.

(** [v.strip()] and [v.lower()]; only a [str] has the methods. *)
Definition strip (v : json) : result string :=
  match v with
  | JStr s => Ok (PyStr.strip s)
  | _ => Raise AttributeError
  end.

Definition lower (v : json) : result string :=
  match v with
  | JStr s => Ok (PyStr.lower s)
  | _ => Raise AttributeError
  end.

Definition is_str (s : string) (v : json) : bool :=
  match v with
  | JStr s' => String.eqb s' s
  | _ => false
  end.

(** [s in v] for a [str] [s]: membership in a list, substring of a
    string, key of a dict. *)
Definition str_in (s : string) (v : json) : result bool :=
  match v with
  | JArr l => Ok (existsb (is_str s) l)
  | JStr s' => Ok (PyStr.contains s s')
  | JObj items => Ok (match assoc s items with Some _ => true | None => false end)
  | _ => Raise TypeError
  end.

Fixpoint chars (s : string) : list json :=
  match s with
  | "" => []
  | String c s' => JStr (String c "") :: chars s'
  end.

Fixpoint keys (seen : list string) (items : list (string * json)) : list json :=
  match items with
  | [] => []
  | (k, _) :: rest =>
      if existsb (String.eqb k) seen then keys seen rest
      else JStr k :: keys (k :: seen) rest
  end.

(** What [for x in v] ranges over: the elements of a list, the
    characters of a string, the keys of a dict. *)
Definition iter (v : json) : result (list json) :=
  match v with
  | JArr l => Ok l
  | JStr s => Ok (chars s)
  | JObj items => Ok (keys [] items)
  | _ => Raise TypeError
  end.

End Py.

(** ** [pick_title] *)

(** The body of the loop over the translations, from the first one left. *)
Fixpoint scan_translations (translations : list json) (default_title : string) : result string :=
  match translations with
  | [] => Ok default_title
  | trans :: rest =>
      let* l := Py.get trans "language" in
      let* lang := Py.lower (Py.or_else l (JStr "")) in
      let* v := Py.get trans "value" in
      let* title_val := Py.strip (Py.or_else v (JStr "")) in
      if negb (PyStr.is_empty title_val) && PyStr.contains "english" lang
      then Ok title_val
      else scan_translations rest default_title
  end.

Definition pick_title (entry : json) : result string :=
  let* n := Py.get entry "name" in
  let name_info := Py.or_else n (JObj []) in
  let* d := Py.get name_info "default_value" in
  let* default_title := Py.strip (Py.or_else d (JStr "")) in
  let* t := Py.get name_info "translations" in
  let* translations := Py.iter (Py.or_else t (JArr [])) in
  scan_translations translations default_title.

(** ** [build_ps2_title_mapping] *)

Definition START_URL : string :=
  "https://api.serialstation.com/titles/" ++
  "?title_id_type=&title_id_number=&systems=b88ad131-ac80-458e-81a1-33ec9e75ea8a".

(** The lines the script prints. *)
Inductive event : Type :=
| Scanning
| Found (n : nat)
| Renamed (original_name new_name : string)
| ErrorRenaming (original_name : string) (e : exn)
| NotFound (code original_name : string).

(** The two locals [mapping] and [seen_ids]. *)
Record build_state : Type := {
  mapping : gmap string string;
  seen_ids : gset string
}.

Definition build_init : build_state := {| mapping := ∅; seen_ids := ∅ |}.

(** The serial an entry resolves to once it has passed the platform, the
    content-type and the serial-component tests; [None] where the loop body
    says [continue]. *)
Definition entry_serial (entry : json) : result (option string) :=
  let* sys := Py.get entry "systems" in
  let* is_ps2 := Py.str_in "PlayStation 2" (Py.or_else sys (JArr [])) in
  if negb is_ps2 then Ok None else
  let* ct := Py.get entry "content_type" in
  let* content_type := Py.lower (Py.or_else ct (JStr "")) in
  if negb (String.eqb content_type "game") then Ok None else
  let* ty := Py.get entry "title_id_type" in
  let* t_type := Py.strip (Py.or_else ty (JStr "")) in
  let* nu := Py.get entry "title_id_number" in
  let* t_num := Py.strip (Py.or_else nu (JStr "")) in
  if negb (negb (PyStr.is_empty t_type) && negb (PyStr.is_empty t_num)) then Ok None else
  Ok (Some (t_type ++ "-" ++ t_num)).

(** One round of [for entry in ...]. *)
Definition process_entry (st : build_state) (entry : json) : result build_state :=
  let* s := entry_serial entry in
  match s with
  | None => Ok st
  | Some serial =>
      if decide (serial ∈ seen_ids st) then Ok st else
      let* title := pick_title entry in
      if negb (PyStr.is_empty title)
      then Ok {| mapping := <[serial := title]> (mapping st);
                 seen_ids := {[serial]} ∪ seen_ids st |}
      else Ok st
  end.

Fixpoint process_entries (st : build_state) (entries : list json) : result build_state :=
  match entries with
  | [] => Ok st
  | entry :: rest =>
      let* st' := process_entry st entry in
      process_entries st' rest
  end.

(** One round of [while url:] after the fetch: the entries of the page, then
    the page's [next]. *)
Definition process_page (st : build_state) (data : json) : result (build_state * json) :=
  let* results := Py.get_default data "results" (JArr []) in
  let* entries := Py.iter results in
  let* st' := process_entries st entries in
  let* next := Py.get data "next" in
  Ok (st', next).

(** [fetch_json]: the remote end decides what a request returns, and may
    change with every request. *)
Class Network (W : Type) : Type :=
  fetch_json : W -> string -> W * result json.

(** Where a run of the builder stands: the remote end, the URLs requested so
    far (kept for the proofs, the script has no such variable) and the
    lines printed. *)
Record builder (W : Type) : Type := {
  world : W;
  requests : list string;
  outcome : option (result build_state)   (* [None]: out of fuel *)
}.
Arguments world {W} _.
Arguments requests {W} _.
Arguments outcome {W} _.

Section Builder.
Context {W : Type} `{Network W}.

(** [while url:].  A [url] that is true but no string is never requested:
    [fetch_json] raises before any traffic, [Request] with [ValueError] or
    [urlopen] with [URLError], as the [str()] of the value is no URL.  The
    two are not told apart here. *)
Fixpoint fetch_loop (fuel : nat) (w : W) (reqs : list string) (url : json)
    (st : build_state) : builder W :=
  if negb (Py.truthy url) then
    {| world := w; requests := reqs; outcome := Some (Ok st) |}
  else
    match fuel with
    | 0 => {| world := w; requests := reqs; outcome := None |}
    | S fuel' =>
        match url with
        | JStr u =>
            let '(w', r) := fetch_json w u in
            match r with
            | inl e => {| world := w'; requests := reqs ++ [u]; outcome := Some (Raise e) |}
            | inr data =>
                match process_page st data with
                | inl e => {| world := w'; requests := reqs ++ [u]; outcome := Some (Raise e) |}
                | inr (st', next) => fetch_loop fuel' w' (reqs ++ [u]) next st'
                end
            end
        | _ => {| world := w; requests := reqs;
                   outcome := Some (Raise (FetchError "unknown url type")) |}
        end
    end.

(** The function itself: what it leaves of the remote end, what it
    printed, and the mapping it returns or the exception it raises. *)
Definition build_ps2_title_mapping (fuel : nat) (w : W)
    : builder W * list event * option (result (gmap string string)) :=
  let b := fetch_loop fuel w [] (JStr START_URL) build_init in
  match outcome b with
  | Some (inr st) => (b, [Scanning; Found (size (mapping st))], Some (Ok (mapping st)))
  | Some (inl e) => (b, [Scanning], Some (Raise e))
  | None => (b, [Scanning], None)
  end.

End Builder.

(** ** [pathlib]: the parts of a name *)

Module Path.

(** The index [i] of the last dot when [0 < i < len(name) - 1]. *)
Definition suffix_index (name : string) : option nat :=
  match PyStr.rfind "." name with
  | Some i => if ((0 <? i) && (i <? String.length name - 1))%nat then Some i else None
  | None => None
  end.

Definition suffix (name : string) : string :=
  match suffix_index name with
  | Some i => PyStr.drop i name
  | None => ""
  end.

Definition stem (name : string) : string :=
  match suffix_index name with
  | Some i => PyStr.take i name
  | None => name
  end.

(** [with_name] refuses the empty name and the name [.].  (It also refuses
    a name with a separator or a drive; none can arise here, the title is
    sanitized and the extension is that of a directory entry.) *)
Definition with_name (new_name : string) : result string :=
  if PyStr.is_empty new_name || String.eqb new_name "." then Raise ValueError
  else Ok new_name.

End Path.

(** ** [rename_ps2_files] *)

(** The working directory: its entries as [iterdir] lists them, whether an
    entry is a regular file, and [rename], which fails without effect. *)
Class FileSystem (FS : Type) : Type := {
  iterdir : FS -> list string;
  is_file : FS -> string -> bool;
  rename : FS -> string -> string -> result FS
}.

(** The candidate code of a file name. *)
Definition candidate_code (original_name : string) : string :=
  Re.re_sub_delete paren_suffix_re (Path.stem original_name).

Definition new_name_of (raw_title original_name : string) : string :=
  sanitize_filename raw_title ++ Path.suffix original_name.

(** A scan in progress: the directory, the lines printed, and the exception
    that ended the scan, if one did. *)
Record scan (FS : Type) : Type := {
  disk : FS;
  printed : list event;
  raised : option exn
}.
Arguments disk {FS} _.
Arguments printed {FS} _.
Arguments raised {FS} _.

Section Renamer.
Context {FS : Type} `{FileSystem FS}.

(** One round of [for file_path in PS2_FOLDER.iterdir()]. *)
Definition rename_one (mapping : gmap string string) (fs : FS) (out : list event)
    (original_name : string) : scan FS :=
  if negb (is_file fs original_name) then
    {| disk := fs; printed := out; raised := None |}
  else
    let code := candidate_code original_name in
    if negb (Re.re_match serial_re code) then
      {| disk := fs; printed := out; raised := None |}
    else
      match mapping !! code with
      | Some raw_title =>
          let new_name := new_name_of raw_title original_name in
          match Path.with_name new_name with
          | inl e => {| disk := fs; printed := out; raised := Some e |}
          | inr new_path =>
              match rename fs original_name new_path with
              | inr fs' =>
                  {| disk := fs'; printed := out ++ [Renamed original_name new_name];
                     raised := None |}
              | inl e =>
                  {| disk := fs; printed := out ++ [ErrorRenaming original_name e];
                     raised := None |}
              end
          end
      | None =>
          {| disk := fs; printed := out ++ [NotFound code original_name];
             raised := None |}
      end.

Fixpoint rename_loop (mapping : gmap string string) (names : list string)
    (fs : FS) (out : list event) : scan FS :=
  match names with
  | [] => {| disk := fs; printed := out; raised := None |}
  | original_name :: rest =>
      let s := rename_one mapping fs out original_name in
      match raised s with
      | Some _ => s
      | None => rename_loop mapping rest (disk s) (printed s)
      end
  end.

Definition rename_ps2_files (mapping : gmap string string) (fs : FS) (out : list event)
    : scan FS :=
  rename_loop mapping (iterdir fs) fs out.

End Renamer.

(** ** [main] *)

Record run (W FS : Type) : Type := {
  net : builder W;
  files : scan FS;
  finished : bool     (* [false]: out of fuel *)
}.
Arguments net {W FS} _.
Arguments files {W FS} _.
Arguments finished {W FS} _.

Definition main {W FS : Type} `{Network W} `{FileSystem FS} (fuel : nat) (w : W) (fs : FS)
    : run W FS :=
  match build_ps2_title_mapping fuel w with
  | (b, out, Some (inr mapping)) =>
      {| net := b; files := rename_ps2_files mapping fs out; finished := true |}
  | (b, out, Some (inl e)) =>
      {| net := b; files := {| disk := fs; printed := out; raised := Some e |};
         finished := true |}
  | (b, out, None) =>
      {| net := b; files := {| disk := fs; printed := out; raised := None |};
         finished := false |}
  end.

(** ** Two small instances, to run the script on *)

(** A remote end that never changes: a table from URL to page, and an HTTP
    error for a URL it does not have. *)
Record static_site : Type := { site_pages : list (string * json) }.

#[export] Instance static_site_network : Network static_site :=
  fun w url =>
    (w, match Py.assoc url (site_pages w) with
        | Some page => Ok page
        | None => Raise (FetchError "HTTP Error 404: Not Found")
        end).

(** A directory as the list of its entries, each a regular file or not.
    [rename] fails when the source is missing and, as on Windows, when
    another entry has the target's name. *)
Record folder : Type := { folder_entries : list (string * bool) }.

Fixpoint folder_find (name : string) (es : list (string * bool)) : option bool :=
  match es with
  | [] => None
  | (n, regular) :: rest => if String.eqb n name then Some regular else folder_find name rest
  end.

Definition folder_rename (d : folder) (src dst : string) : result folder :=
  match folder_find src (folder_entries d) with
  | None => Raise (OSError "No such file or directory")
  | Some _ =>
      if String.eqb src dst then Ok d
      else
        match folder_find dst (folder_entries d) with
        | Some _ => Raise (OSError "File exists")
        | None =>
            Ok {| folder_entries :=
                    map (fun e => if String.eqb (fst e) src then (dst, snd e) else e)
                        (folder_entries d) |}
        end
  end.

#[export] Instance folder_fs : FileSystem folder := {|
  iterdir d := map fst (folder_entries d);
  is_file d name := match folder_find name (folder_entries d) with Some b => b | None => false end;
  rename := folder_rename
|}.

(** ** Vocabulary of the statements *)

Definition nl : string := String Re.newline "".

(** Four capital letters A..Z, a hyphen, five digits 0..9: what
    [serial_re] describes between its anchors. *)
Definition serial_form (s : string) : Prop :=
  exists letters digits,
    s = letters ++ "-" ++ digits /\
    String.length letters = 4 /\ String.length digits = 5 /\
    PyStr.all PyStr.isupper_AZ letters = true /\
    PyStr.all PyStr.isdigit digits = true.

(** A character that is neither white space nor an opening parenthesis:
    no match of [paren_suffix_re] starts on it. *)
Definition plain_char (c : ascii) : bool :=
  negb (PyStr.isspace c) && negb (Re.lit "(" c).

(** The scan went past a name and left everything as it was. *)
Definition untouched {FS : Type} (fs : FS) (out : list event) : scan FS :=
  {| disk := fs; printed := out; raised := None |}.

(** A character that [sanitize_filename] does not keep when a title holds
    nothing else: one of the nine, or white space. *)
Definition vanishing_char (c : ascii) : bool := illegal_char c || PyStr.isspace c.

(** What the idempotence argument asks of a directory: after a rename that
    succeeded, a regular file is the target or was one before and is not
    the source; and every regular file is listed. *)
Class FileSystemLaws (FS : Type) `{FileSystem FS} : Prop := {
  rename_files : forall (fs fs' : FS) (src dst n : string),
    rename fs src dst = inr fs' -> is_file fs' n = true ->
    n = dst \/ (n <> src /\ is_file fs n = true);
  iterdir_complete : forall (fs : FS) (n : string),
    is_file fs n = true -> In n (iterdir fs)
}.

(** A name the Renamer would try to rename, were it a regular file: its
    candidate code matches and is a key of the mapping. *)
Definition renamable (mapping : gmap string string) (name : string) : bool :=
  Re.re_match serial_re (candidate_code name) &&
  match mapping !! candidate_code name with Some _ => true | None => false end.

(** A name some listed file is renamed to. *)
Definition is_target (mapping : gmap string string) (names : list string) (n : string) : Prop :=
  exists src title,
    In src names /\ Re.re_match serial_re (candidate_code src) = true /\
    mapping !! candidate_code src = Some title /\ n = new_name_of title src.

Definition is_error (ev : event) : bool :=
  match ev with ErrorRenaming _ _ => true | _ => false end.

Definition is_not_found (ev : event) : bool :=
  match ev with NotFound _ _ => true | _ => false end.

(** [v], or the empty string in its place when [v] is false, is the string
    [s]. *)
Definition as_text (v : json) (s : string) : Prop := Py.or_else v (JStr "") = JStr s.

(** A translation, as its language tag and its value, qualifies when the
    tag holds the word english whatever the case and the value is not empty
    once trimmed. *)
Definition qualifies (t : string * string) : bool :=
  PyStr.contains "english" (PyStr.lower (fst t)) &&
  negb (PyStr.is_empty (PyStr.strip (snd t))).

(** The translations of a name structure read as pairs of strings. *)
Definition reads_as (translations : list json) (pairs : list (string * string)) : Prop :=
  Forall2 (fun trans p =>
             exists l v, Py.get trans "language" = Ok l /\ as_text l (fst p) /\
                         Py.get trans "value" = Ok v /\ as_text v (snd p))
          translations pairs.

Definition translation (language value : string) : json :=
  JObj [("language", JStr language); ("value", JStr value)].

Definition named (default_value : string) (translations : list json) : json :=
  JObj [("name", JObj [("default_value", JStr default_value);
                       ("translations", JArr translations)])].

(** White space at neither end. *)
Definition trimmed (s : string) : Prop :=
  (forall c, PyStr.head s = Some c -> PyStr.isspace c = false) /\
  (forall c, PyStr.last s = Some c -> PyStr.isspace c = false).

(** What the builder grants of a key and its title: the key is a non-empty
    trimmed type, a hyphen and a non-empty trimmed number, and the title is
    not empty. *)
Definition recorded_shape (serial title : string) : Prop :=
  title <> "" /\
  exists t_type t_num,
    serial = t_type ++ "-" ++ t_num /\
    t_type <> "" /\ t_num <> "" /\ trimmed t_type /\ trimmed t_num.

(** The format LLLL-NNNNN of the glossary: four letters, a hyphen, five
    digits. *)
Definition isletter (c : ascii) : bool := PyStr.in_range 65 90 c || PyStr.in_range 97 122 c.

Definition serial_code_format (s : string) : Prop :=
  exists letters digits,
    s = letters ++ "-" ++ digits /\
    String.length letters = 4 /\ String.length digits = 5 /\
    PyStr.all isletter letters = true /\ PyStr.all PyStr.isdigit digits = true.

(** A catalog entry with every field a string. *)
Definition catalog_entry (system content_type t_type t_num default_value : string) : json :=
  JObj [("systems", JArr [JStr system]); ("content_type", JStr content_type);
        ("title_id_type", JStr t_type); ("title_id_number", JStr t_num);
        ("name", JObj [("default_value", JStr default_value)])].

Definition page (results : list json) (next : json) : json :=
  JObj [("results", JArr results); ("next", next)].

(** The loop over the pages, seen from outside: from the head of the loop
    with the remote end [w], the URL [url] and the state [st], the rounds
    that fetch and process the pages [visited] without an exception lead to
    the head of the loop with [w'], [url'] and [st']. *)
Inductive reaches {W : Type} `{Network W} :
    W -> json -> build_state -> list (string * json) -> W -> json -> build_state -> Prop :=
| reaches_here (w : W) (url : json) (st : build_state) :
    reaches w url st [] w url st
| reaches_step (w w1 w' : W) (u : string) (data next url' : json)
    (st st1 st' : build_state) (visited : list (string * json)) :
    u <> "" ->
    fetch_json w u = (w1, Ok data) ->
    process_page st data = Ok (st1, next) ->
    reaches w1 next st1 visited w' url' st' ->
    reaches w (JStr u) st ((u, data) :: visited) w' url' st'.

(** Each page's [next] is the URL of the page after it, and the last
    page's is [final]. *)
Fixpoint linked (visited : list (string * json)) (final : json) : Prop :=
  match visited with
  | [] => True
  | (_, data) :: rest =>
      Py.get data "next" = Ok (match rest with
                               | [] => final
                               | (u, _) :: _ => JStr u
                               end) /\
      linked rest final
  end.

(** An extension as [Path.suffix] gives it: a dot, then at least one
    character, none of them a dot. *)
Definition is_extension (ext : string) : Prop :=
  exists e, ext = String "." e /\ e <> "" /\ PyStr.rfind "." e = None.

Definition legal_char (c : ascii) : bool := negb (illegal_char c).

(** [entry] is one of the entries the builder goes through on the page
    [data]. *)
Definition page_entry (data entry : json) : Prop :=
  exists results entries,
    Py.get_default data "results" (JArr []) = Ok results /\
    Py.iter results = Ok entries /\ In entry entries.

(** The [next] of a page given as its items. *)
Definition next_of (items : list (string * json)) : json :=
  match Py.assoc "next" items with Some v => v | None => JNull end.

(** What stands behind a line of the Renamer, for the mapping it was given
    and the names the directory listed. *)
Definition line_justified (mapping : gmap string string) (names : list string)
    (ev : event) : Prop :=
  match ev with
  | Renamed original_name new_name =>
      In original_name names /\
      Re.re_match serial_re (candidate_code original_name) = true /\
      exists title, mapping !! candidate_code original_name = Some title /\
                    new_name = new_name_of title original_name
  | ErrorRenaming original_name _ =>
      In original_name names /\ renamable mapping original_name = true
  | NotFound code original_name =>
      In original_name names /\ code = candidate_code original_name /\
      Re.re_match serial_re code = true /\ mapping !! code = None
  | Scanning | Found _ => False
  end.

(** White space, then a parenthesized region free of newlines: what
    [paren_suffix_re] matches before its [$]. *)
Definition paren_region (m : string) : Prop :=
  exists ws inner,
    m = ws ++ "(" ++ inner ++ ")" /\
    PyStr.all PyStr.isspace ws = true /\ PyStr.all Re.dot inner = true.

(** The string [s] ends with the region [m]: [kept] stands before it, and
    after it nothing, or the newline that ends [s]. *)
Definition region_at_end (s kept m tail : string) : Prop :=
  s = kept ++ m ++ tail /\ paren_region m /\ (tail = "" \/ tail = nl).

(** [entry.get(key)], or the empty string in its place when it is false,
    is the string [s]. *)
Definition field_text (entry : json) (key s : string) : Prop :=
  exists v, Py.get entry key = Ok v /\ as_text v s.

(** The entry passes the three tests at the head of the loop body: its
    systems hold the platform, its content type is the word game whatever
    the case, and its type [t_type] and number [t_num], as read from
    [title_id_type] and [title_id_number], are not blank. *)
Definition passes_filters (entry : json) (t_type t_num : string) : Prop :=
  (exists sys, Py.get entry "systems" = Ok sys /\
               Py.str_in "PlayStation 2" (Py.or_else sys (JArr [])) = Ok true) /\
  (exists ct, field_text entry "content_type" ct /\ PyStr.lower ct = "game") /\
  field_text entry "title_id_type" t_type /\
  field_text entry "title_id_number" t_num /\
  PyStr.strip t_type <> "" /\ PyStr.strip t_num <> "".

(** The serial code of a type and a number. *)
Definition serial_of (t_type t_num : string) : string :=
  PyStr.strip t_type ++ "-" ++ PyStr.strip t_num.

(** The entries of the pages, page by page, as the loops go through
    them. *)
Definition pages_entries (visited : list (string * json)) (ess : list (list json)) : Prop :=
  Forall2 (fun p es => exists results,
             Py.get_default (snd p) "results" (JArr []) = Ok results /\
             Py.iter results = Ok es)
          visited ess.

(** * Properties *)

(** ** Strings *)

Lemma append_cons (c : ascii) (s t : string) : String c s ++ t = String c (s ++ t).
Proof. reflexivity. Qed.

Lemma append_nil_l (s : string) : "" ++ s = s.
Proof. reflexivity. Qed.

Lemma append_nil_r (s : string) : s ++ "" = s.
Proof. induction s as [|c s IH]; [reflexivity|]. rewrite append_cons, IH. reflexivity. Qed.

Lemma append_assoc (s t u : string) : (s ++ t) ++ u = s ++ t ++ u.
Proof. induction s as [|c s IH]; [reflexivity|]. rewrite !append_cons, IH. reflexivity. Qed.

Lemma all_append (p : ascii -> bool) (s t : string) :
  PyStr.all p (s ++ t) = PyStr.all p s && PyStr.all p t.
Proof.
  induction s as [|c s IH]; [reflexivity|].
  rewrite append_cons. simpl. rewrite IH. apply andb_assoc.
Qed.

Lemma lstrip_split (s : string) :
  exists l, s = l ++ PyStr.lstrip s /\ PyStr.all PyStr.isspace l = true.
Proof.
  induction s as [|c s [l [Hs Hl]]].
  - exists "". split; reflexivity.
  - simpl. destruct (PyStr.isspace c) eqn:Hc.
    + exists (String c l). rewrite append_cons, <- Hs. simpl. rewrite Hc, Hl. split; reflexivity.
    + exists "". split; reflexivity.
Qed.

Lemma lstrip_head (s : string) (c : ascii) :
  PyStr.head (PyStr.lstrip s) = Some c -> PyStr.isspace c = false.
Proof.
  induction s as [|a s IH]; simpl; [discriminate|].
  destruct (PyStr.isspace a) eqn:Ha; [exact IH|].
  simpl. intros [= <-]. exact Ha.
Qed.

Lemma rstrip_split (s : string) :
  exists r, s = PyStr.rstrip s ++ r /\ PyStr.all PyStr.isspace r = true.
Proof.
  induction s as [|c s [r [Hs Hr]]].
  - exists "". split; reflexivity.
  - simpl. destruct (PyStr.rstrip s) as [|a t] eqn:Ht.
    + destruct (PyStr.isspace c) eqn:Hc.
      * exists (String c r). rewrite append_nil_l in Hs. subst r.
        rewrite append_nil_l. simpl. rewrite Hc. auto.
      * exists r. rewrite append_cons. rewrite <- Hs. auto.
    + exists r. rewrite append_cons, <- Hs. auto.
Qed.

Lemma rstrip_last (s : string) (c : ascii) :
  PyStr.last (PyStr.rstrip s) = Some c -> PyStr.isspace c = false.
Proof.
  induction s as [|a s IH]; simpl; [discriminate|].
  destruct (PyStr.rstrip s) as [|b t] eqn:Ht.
  - destruct (PyStr.isspace a) eqn:Ha; simpl; [discriminate|].
    intros [= <-]. exact Ha.
  - exact IH.
Qed.

Lemma last_lstrip (s : string) (c : ascii) :
  PyStr.last (PyStr.lstrip s) = Some c -> PyStr.last s = Some c.
Proof.
  induction s as [|a s IH]; simpl; [discriminate|].
  destruct (PyStr.isspace a) eqn:Ha.
  - intros Hl. specialize (IH Hl). destruct s; [discriminate|exact IH].
  - auto.
Qed.

(** What [strip] leaves: the string between a run of white space on each
    side, itself with white space at neither end. *)
Lemma strip_spec (s : string) :
  (exists l r, s = l ++ PyStr.strip s ++ r /\
     PyStr.all PyStr.isspace l = true /\ PyStr.all PyStr.isspace r = true) /\
  (forall c, PyStr.head (PyStr.strip s) = Some c -> PyStr.isspace c = false) /\
  (forall c, PyStr.last (PyStr.strip s) = Some c -> PyStr.isspace c = false).
Proof.
  unfold PyStr.strip. split; [|split].
  - destruct (rstrip_split s) as [r [Hs Hr]].
    destruct (lstrip_split (PyStr.rstrip s)) as [l [Hl Hll]].
    exists l, r. split; [|auto].
    rewrite <- append_assoc, <- Hl. exact Hs.
  - apply lstrip_head.
  - intros c Hc. apply last_lstrip in Hc. revert Hc. apply rstrip_last.
Qed.

(** ** Regular expressions *)

Lemma sub_go_skip_all (r : Re.regex) (b : bool) (s : string) :
  Re.sub_go r (String.length s) b s = "".
Proof.
  revert b. induction s as [|c s IH]; intros b; [reflexivity|].
  simpl. apply IH.
Qed.

(** Deleting the matches of a one-character pattern keeps exactly the
    characters outside the class. *)
Lemma sub_go_atom (p : ascii -> bool) (b : bool) (s : string) :
  Re.sub_go (Re.Atom p) 0 b s = PyStr.filter (fun c => negb (p c)) s.
Proof.
  revert b. induction s as [|c s IH]; intros b; [reflexivity|].
  cbn [Re.sub_go PyStr.filter]. unfold Re.match_here. cbn [Re.run].
  destruct (p c); cbn [negb].
  - replace (String.length (String c s) - String.length s) with 1
      by (cbn [String.length]; lia).
    apply IH.
  - rewrite IH. reflexivity.
Qed.

Lemma filter_all (p : ascii -> bool) (s : string) :
  PyStr.all p (PyStr.filter p s) = true.
Proof.
  induction s as [|c s IH]; [reflexivity|].
  simpl. destruct (p c) eqn:Hc; [|exact IH].
  simpl. rewrite Hc, IH. reflexivity.
Qed.

Lemma illegal_char_iff (c : ascii) :
  illegal_char c = true <->
  In c ["<"; ">"; ":"; "034"; "/"; "\"; "|"; "?"; "*"]%char.
Proof.
  destruct c as [[] [] [] [] [] [] [] []]; vm_compute; split;
    first [ discriminate | tauto | intuition discriminate ].
Qed.

(** ** The Filename Sanitizer *)

(** C4.  For every input, [sanitize_filename] is the input without the nine
    characters less-than, greater-than, colon, double quote, slash,
    backslash, bar, question mark and star, and without the white space at
    its two ends: the characters kept are in their order, none is dropped
    from the inside, the result holds none of the nine and neither starts
    nor ends with white space.  [My: Game? / Title*] becomes
    [My Game  Title], with its two inner spaces. *)
Theorem sanitize_filename_spec (name : string) :
  let kept := PyStr.filter (fun c => negb (illegal_char c)) name in
  (forall c, illegal_char c = true <->
             In c ["<"; ">"; ":"; "034"; "/"; "\"; "|"; "?"; "*"]%char) /\
  (exists l r, kept = l ++ sanitize_filename name ++ r /\
     PyStr.all PyStr.isspace l = true /\ PyStr.all PyStr.isspace r = true) /\
  PyStr.all (fun c => negb (illegal_char c)) (sanitize_filename name) = true /\
  (forall c, PyStr.head (sanitize_filename name) = Some c -> PyStr.isspace c = false) /\
  (forall c, PyStr.last (sanitize_filename name) = Some c -> PyStr.isspace c = false) /\
  sanitize_filename "My: Game? / Title*" = "My Game  Title".
Proof.
  intros kept.
  assert (Hsub : Re.re_sub_delete illegal_re name = kept) by apply sub_go_atom.
  unfold sanitize_filename. rewrite Hsub.
  destruct (strip_spec kept) as [[l [r [Hk [Hl Hr]]]] [Hh Ht]].
  split; [exact illegal_char_iff|].
  split; [exists l, r; auto|].
  split.
  - pose proof (filter_all (fun c => negb (illegal_char c)) name) as Hall.
    fold kept in Hall. rewrite Hk in Hall.
    rewrite !all_append in Hall.
    apply andb_prop in Hall as [_ Hall]. apply andb_prop in Hall as [Hall _].
    exact Hall.
  - split; [exact Hh|]. split; [exact Ht|]. reflexivity.
Qed.

(** ** The two patterns of the Renamer *)

Ltac split_all H :=
  repeat match type of H with
         | (_ && _) = true => let H1 := fresh H in apply andb_prop in H as [H1 H]
         end.

(** [serial_re] accepts the serial codes, and a serial code followed by one
    newline, which [$] lets through. *)
Lemma serial_form_intro (l1 l2 l3 l4 d1 d2 d3 d4 d5 : ascii) :
  PyStr.isupper_AZ l1 = true -> PyStr.isupper_AZ l2 = true ->
  PyStr.isupper_AZ l3 = true -> PyStr.isupper_AZ l4 = true ->
  PyStr.isdigit d1 = true -> PyStr.isdigit d2 = true -> PyStr.isdigit d3 = true ->
  PyStr.isdigit d4 = true -> PyStr.isdigit d5 = true ->
  serial_form (String l1 (String l2 (String l3 (String l4 (String "-"
    (String d1 (String d2 (String d3 (String d4 (String d5 "")))))))))).
Proof.
  intros L1 L2 L3 L4 D1 D2 D3 D4 D5.
  exists (String l1 (String l2 (String l3 (String l4 "")))).
  exists (String d1 (String d2 (String d3 (String d4 (String d5 ""))))).
  cbn. rewrite L1, L2, L3, L4, D1, D2, D3, D4, D5. repeat split; reflexivity.
Qed.

Lemma serial_form_inv (b : string) :
  serial_form b ->
  exists l1 l2 l3 l4 d1 d2 d3 d4 d5,
    b = String l1 (String l2 (String l3 (String l4 (String "-"
          (String d1 (String d2 (String d3 (String d4 (String d5 ""))))))))) /\
    PyStr.isupper_AZ l1 = true /\ PyStr.isupper_AZ l2 = true /\
    PyStr.isupper_AZ l3 = true /\ PyStr.isupper_AZ l4 = true /\
    PyStr.isdigit d1 = true /\ PyStr.isdigit d2 = true /\ PyStr.isdigit d3 = true /\
    PyStr.isdigit d4 = true /\ PyStr.isdigit d5 = true.
Proof.
  intros (letters & digits & -> & Hl & Hd & Hal & Had).
  do 4 (destruct letters as [|? letters]; cbn in Hl; [discriminate Hl|]).
  destruct letters; cbn in Hl; [|discriminate Hl].
  do 5 (destruct digits as [|? digits]; cbn in Hd; [discriminate Hd|]).
  destruct digits; cbn in Hd; [|discriminate Hd].
  cbn in Hal, Had. split_all Hal. split_all Had.
  do 9 eexists. split; [reflexivity|]. repeat split; assumption.
Qed.

(** [serial_re] accepts the serial codes, and a serial code followed by one
    newline, which [$] lets through. *)
Lemma serial_re_match (s : string) :
  Re.re_match serial_re s = true <->
  serial_form s \/ exists b, s = b ++ nl /\ serial_form b.
Proof.
  unfold Re.re_match, Re.match_here, serial_re. split.
  - intros Hm. cbn in Hm.
    destruct s as [|l1 s]; cbn in Hm; [discriminate|].
    destruct (PyStr.isupper_AZ l1) eqn:L1; [|discriminate].
    destruct s as [|l2 s]; cbn in Hm; [discriminate|].
    destruct (PyStr.isupper_AZ l2) eqn:L2; [|discriminate].
    destruct s as [|l3 s]; cbn in Hm; [discriminate|].
    destruct (PyStr.isupper_AZ l3) eqn:L3; [|discriminate].
    destruct s as [|l4 s]; cbn in Hm; [discriminate|].
    destruct (PyStr.isupper_AZ l4) eqn:L4; [|discriminate].
    destruct s as [|h s]; cbn in Hm; [discriminate|].
    unfold Re.lit in Hm at 1. destruct (ascii_dec h "-"); [subst h|discriminate].
    destruct s as [|d1 s]; cbn in Hm; [discriminate|].
    destruct (PyStr.isdigit d1) eqn:D1; [|discriminate].
    destruct s as [|d2 s]; cbn in Hm; [discriminate|].
    destruct (PyStr.isdigit d2) eqn:D2; [|discriminate].
    destruct s as [|d3 s]; cbn in Hm; [discriminate|].
    destruct (PyStr.isdigit d3) eqn:D3; [|discriminate].
    destruct s as [|d4 s]; cbn in Hm; [discriminate|].
    destruct (PyStr.isdigit d4) eqn:D4; [|discriminate].
    destruct s as [|d5 s]; cbn in Hm; [discriminate|].
    destruct (PyStr.isdigit d5) eqn:D5; [|discriminate].
    destruct s as [|c s]; cbn in Hm.
    + left. apply serial_form_intro; assumption.
    + destruct s as [|? ?]; [|discriminate].
      unfold Re.lit in Hm. destruct (ascii_dec c "010"); [subst c|discriminate].
      right.
      exists (String l1 (String l2 (String l3 (String l4 (String "-"
                (String d1 (String d2 (String d3 (String d4 (String d5 "")))))))))).
      split; [reflexivity|apply serial_form_intro; assumption].
  - assert (Hok : forall b tl, serial_form b -> Re.at_end tl = true ->
        match Re.run serial_re true (b ++ tl) (fun _ rest => Some rest) with
        | Some _ => true | None => false end = true).
    { intros b tl Hb Htl. apply serial_form_inv in Hb.
      destruct Hb as (l1 & l2 & l3 & l4 & d1 & d2 & d3 & d4 & d5 & -> &
                      L1 & L2 & L3 & L4 & D1 & D2 & D3 & D4 & D5).
      rewrite !append_cons, append_nil_l.
      cbn -[PyStr.isupper_AZ PyStr.isdigit Re.at_end].
      rewrite L1, L2, L3, L4, D1, D2, D3, D4, D5, Htl. reflexivity. }
    unfold serial_re in Hok.
    intros [Hf | (b & -> & Hf)].
    + rewrite <- (append_nil_r s). apply Hok; [exact Hf|reflexivity].
    + apply Hok; [exact Hf|reflexivity].
Qed.

Lemma length_append (s t : string) :
  String.length (s ++ t) = String.length s + String.length t.
Proof. induction s as [|c s IH]; [reflexivity|]. rewrite append_cons. simpl. rewrite IH. reflexivity. Qed.

Lemma at_end_cases (e : string) : Re.at_end e = true -> e = "" \/ e = nl.
Proof.
  destruct e as [|c [|]]; cbn; [auto| |discriminate].
  unfold Re.lit. destruct (ascii_dec c "010") as [->|]; [auto|discriminate].
Qed.

(** What follows the opening parenthesis: [.*] runs over [inner], takes the
    closing parenthesis too when it can, and gives it back. *)
Lemma star_dot_close (inner e : string) (b : bool) :
  PyStr.all Re.dot inner = true -> Re.at_end e = true ->
  Re.star_greedy Re.dot
    (fun b' s' => Re.run (Re.Seq (Re.Atom (Re.lit ")")) Re.Eos) b' s' (fun _ rest => Some rest))
    b (inner ++ ")" ++ e) = Some e.
Proof.
  intros Hin He. revert b. induction inner as [|a inner IH]; intros b.
  - rewrite append_nil_l.
    apply at_end_cases in He as [-> | ->]; reflexivity.
  - cbn in Hin. apply andb_prop in Hin as [Ha Hin].
    rewrite append_cons. cbn [Re.star_greedy]. rewrite Ha, (IH Hin). reflexivity.
Qed.

Lemma paren_match_here (ws inner e : string) (b : bool) :
  PyStr.all PyStr.isspace ws = true -> PyStr.all Re.dot inner = true ->
  Re.at_end e = true ->
  Re.match_here paren_suffix_re b (ws ++ "(" ++ inner ++ ")" ++ e) = Some e.
Proof.
  intros Hws Hin He. unfold Re.match_here, paren_suffix_re. cbn [Re.run].
  revert b. induction ws as [|w ws IH]; intros b.
  - rewrite append_nil_l, append_cons, append_nil_l.
    cbn [Re.star_greedy]. replace (PyStr.isspace "(") with false by reflexivity.
    cbn [Re.run]. replace (Re.lit "(" "(") with true by reflexivity.
    apply star_dot_close; assumption.
  - cbn in Hws. apply andb_prop in Hws as [Hw Hws].
    rewrite append_cons. cbn [Re.star_greedy]. rewrite Hw, (IH Hws). reflexivity.
Qed.

Lemma paren_no_match_plain (a : ascii) (s : string) (b : bool) :
  plain_char a = true -> Re.match_here paren_suffix_re b (String a s) = None.
Proof.
  unfold plain_char. intros Ha. apply andb_prop in Ha as [Hs Hp].
  apply negb_true_iff in Hs, Hp.
  unfold Re.match_here, paren_suffix_re. cbn [Re.run Re.star_greedy].
  rewrite Hs, Hp. reflexivity.
Qed.

Lemma paren_no_match_without_open (s : string) (b : bool) :
  PyStr.all (fun a => negb (Re.lit "(" a)) s = true ->
  Re.match_here paren_suffix_re b s = None.
Proof.
  unfold Re.match_here, paren_suffix_re. cbn [Re.run].
  revert b. induction s as [|a s IH]; intros b Hs; [reflexivity|].
  cbn in Hs. apply andb_prop in Hs as [Ha Hs]. apply negb_true_iff in Ha.
  cbn [Re.star_greedy Re.run]. rewrite (IH false Hs), Ha.
  destruct (PyStr.isspace a); reflexivity.
Qed.

Lemma sub_go_skip (r : Re.regex) (t u : string) :
  Re.sub_go r (String.length t) false (t ++ u) = Re.sub_go r 0 false u.
Proof.
  induction t as [|c t IH]; [reflexivity|].
  rewrite append_cons. cbn [String.length Re.sub_go]. exact IH.
Qed.

Lemma paren_sub_tail (e : string) :
  Re.at_end e = true -> Re.sub_go paren_suffix_re 0 false e = e.
Proof. intros He. apply at_end_cases in He as [-> | ->]; reflexivity. Qed.

(** A trailing parenthesized region, with the white space before it, is
    deleted from a stem whose head [c] gives no earlier match; a newline
    that ends the stem stays. *)
Lemma paren_suffix_stripped (c ws inner e : string) (b : bool) :
  PyStr.all plain_char c = true ->
  PyStr.all PyStr.isspace ws = true -> PyStr.all Re.dot inner = true ->
  Re.at_end e = true ->
  Re.sub_go paren_suffix_re 0 b (c ++ ws ++ "(" ++ inner ++ ")" ++ e) = c ++ e.
Proof.
  intros Hc Hws Hin He. revert b. induction c as [|a c IH]; intros b.
  - rewrite !append_nil_l.
    pose proof (paren_match_here ws inner e b Hws Hin He) as Hm.
    assert (Hsplit : ws ++ "(" ++ inner ++ ")" ++ e = (ws ++ "(" ++ inner ++ ")") ++ e)
      by (rewrite !append_assoc; reflexivity).
    rewrite Hsplit in *.
    destruct (ws ++ "(" ++ inner ++ ")") as [|x t] eqn:Ht.
    { destruct ws; discriminate Ht. }
    rewrite append_cons in *. cbn [Re.sub_go]. rewrite Hm.
    replace (String.length (String x (t ++ e)) - String.length e) with (S (String.length t))
      by (cbn [String.length]; rewrite length_append; lia).
    destruct t as [|y t].
    + rewrite append_nil_l. destruct e as [|z e]; [reflexivity|].
      apply at_end_cases in He as [He | He]; [discriminate He|].
      injection He as -> ->. reflexivity.
    + change (Re.sub_go paren_suffix_re (S (String.length (String y t))) false
                (String x (String y t ++ e)))
        with (Re.sub_go paren_suffix_re (String.length (String y t)) false (String y t ++ e)).
      rewrite sub_go_skip. apply paren_sub_tail. exact He.
  - cbn in Hc. apply andb_prop in Hc as [Ha Hc].
    rewrite append_cons. cbn [Re.sub_go].
    rewrite (paren_no_match_plain a _ b Ha), (IH Hc). reflexivity.
Qed.

Lemma paren_suffix_absent (s : string) (b : bool) :
  PyStr.all (fun a => negb (Re.lit "(" a)) s = true ->
  Re.sub_go paren_suffix_re 0 b s = s.
Proof.
  revert b. induction s as [|a s IH]; intros b Hs; [reflexivity|].
  cbn [Re.sub_go]. rewrite (paren_no_match_without_open _ b Hs).
  cbn in Hs. apply andb_prop in Hs as [_ Hs]. rewrite (IH false Hs). reflexivity.
Qed.

(** ** The Renamer: which files it looks at *)

Lemma take_drop (i : nat) (s : string) : PyStr.take i s ++ PyStr.drop i s = s.
Proof.
  revert i. induction s as [|c s IH]; intros [|i]; try reflexivity.
  cbn [PyStr.take PyStr.drop]. rewrite append_cons, IH. reflexivity.
Qed.

Lemma stem_suffix (name : string) : Path.stem name ++ Path.suffix name = name.
Proof.
  unfold Path.stem, Path.suffix. destruct (Path.suffix_index name).
  - apply take_drop.
  - apply append_nil_r.
Qed.

(** ** The Renamer: a title that sanitizes to nothing *)

Lemma rstrip_spaces (s : string) : PyStr.all PyStr.isspace s = true -> PyStr.rstrip s = "".
Proof.
  induction s as [|c s IH]; [reflexivity|].
  cbn. intros Hs. apply andb_prop in Hs as [Hc Hs]. rewrite (IH Hs), Hc. reflexivity.
Qed.

Lemma filter_vanishing (s : string) :
  PyStr.all vanishing_char s = true ->
  PyStr.all PyStr.isspace (PyStr.filter (fun c => negb (illegal_char c)) s) = true.
Proof.
  induction s as [|c s IH]; [reflexivity|].
  cbn. intros Hs. apply andb_prop in Hs as [Hc Hs]. unfold vanishing_char in Hc.
  destruct (illegal_char c); cbn in *; [auto|].
  rewrite Hc. auto.
Qed.

Lemma sanitize_vanishing (title : string) :
  PyStr.all vanishing_char title = true -> sanitize_filename title = "".
Proof.
  intros Ht. unfold sanitize_filename, Re.re_sub_delete, illegal_re, PyStr.strip.
  rewrite sub_go_atom, rstrip_spaces; [reflexivity|].
  apply filter_vanishing. exact Ht.
Qed.

Lemma length_drop (i : nat) (s : string) :
  String.length (PyStr.drop i s) = String.length s - i.
Proof.
  revert i. induction s as [|c s IH]; intros [|i]; try reflexivity.
  cbn [PyStr.drop String.length]. rewrite IH. reflexivity.
Qed.

(** An extension has at least two characters. *)
Lemma suffix_length (name : string) :
  Path.suffix name <> "" -> 2 <= String.length (Path.suffix name).
Proof.
  unfold Path.suffix, Path.suffix_index.
  destruct (PyStr.rfind "." name) as [i|]; [|congruence].
  destruct ((0 <? i) && (i <? String.length name - 1))%nat eqn:Hi; [|congruence].
  intros _. apply andb_prop in Hi as [_ Hi]. apply Nat.ltb_lt in Hi.
  rewrite length_drop. lia.
Qed.

Lemma with_name_suffix (name : string) :
  Path.suffix name <> "" -> Path.with_name (Path.suffix name) = Ok (Path.suffix name).
Proof.
  intros Hne. pose proof (suffix_length name Hne) as Hlen.
  unfold Path.with_name.
  destruct (Path.suffix name) as [|a [|b t]]; cbn in *; [congruence|lia|].
  destruct (Ascii.eqb a "."); reflexivity.
Qed.

(** C10, as amended.  A title made only of the nine characters and white
    space sanitizes to the empty string, and nothing checks for that: for a
    regular file with an extension whose candidate code has such a title,
    the new name is the extension alone and the rename is attempted with
    it, printed as renamed when it succeeds and as an error when it
    fails. *)
Theorem rename_one_empty_title {FS : Type} `{FileSystem FS}
    (mapping : gmap string string) (fs : FS) (out : list event) (name title : string) :
  is_file fs name = true ->
  Re.re_match serial_re (candidate_code name) = true ->
  mapping !! candidate_code name = Some title ->
  PyStr.all vanishing_char title = true ->
  Path.suffix name <> "" ->
  sanitize_filename title = "" /\
  new_name_of title name = Path.suffix name /\
  rename_one mapping fs out name =
    match rename fs name (Path.suffix name) with
    | inr fs' => {| disk := fs'; printed := out ++ [Renamed name (Path.suffix name)];
                    raised := None |}
    | inl e => {| disk := fs; printed := out ++ [ErrorRenaming name e]; raised := None |}
    end.
Proof.
  intros Hfile Hmatch Hmap Htitle Hext.
  pose proof (sanitize_vanishing title Htitle) as Hclean.
  assert (Hnew : new_name_of title name = Path.suffix name)
    by (unfold new_name_of; rewrite Hclean; apply append_nil_l).
  split; [exact Hclean|]. split; [exact Hnew|].
  unfold rename_one. rewrite Hfile, Hmatch, Hmap. cbn [negb].
  rewrite Hnew, (with_name_suffix name Hext). reflexivity.
Qed.

Lemma rename_one_empty_title_witness :
  let d := {| folder_entries := [("SCUS-12345.iso", true)] |} in
  rename_one {["SCUS-12345" := "?: *"]} d [] "SCUS-12345.iso" =
    {| disk := {| folder_entries := [(".iso", true)] |};
       printed := [Renamed "SCUS-12345.iso" ".iso"]; raised := None |}.
Proof.
  intros d.
  refine (eq_trans (proj2 (proj2
    (@rename_one_empty_title folder _ {["SCUS-12345" := "?: *"]} d [] "SCUS-12345.iso" "?: *"
       _ _ _ _ _))) _).
  - reflexivity.
  - reflexivity.
  - vm_compute. reflexivity.
  - reflexivity.
  - vm_compute. discriminate.
  - vm_compute. reflexivity.
Defined.

(** C10 as stated fails for a file without an extension: the new name is
    then empty, [with_name] raises [ValueError] outside the [try], and no
    rename is attempted. *)
Lemma rename_one_empty_title_no_extension :
  let d := {| folder_entries := [("SCUS-12345", true)] |} in
  let m : gmap string string := {["SCUS-12345" := "?"]} in
  is_file d "SCUS-12345" = true /\
  m !! candidate_code "SCUS-12345" = Some "?" /\
  PyStr.all vanishing_char "?" = true /\
  new_name_of "?" "SCUS-12345" = "" /\
  rename_one m d [] "SCUS-12345" = {| disk := d; printed := []; raised := Some ValueError |} /\
  rename_ps2_files m d [] = {| disk := d; printed := []; raised := Some ValueError |}.
Proof. vm_compute. repeat split; reflexivity. Qed.

(** ** The Renamer: a rename that fails *)

Section RenameLoop.
Context {FS : Type} `{FileSystem FS}.



End RenameLoop.


(** ** The Renamer: a second scan *)

Lemma folder_find_renamed (es : list (string * bool)) (src dst n : string) :
  src <> dst ->
  folder_find n (map (fun e => if String.eqb (fst e) src then (dst, snd e) else e) es) = Some true ->
  n = dst \/ (n <> src /\ folder_find n es = Some true).
Proof.
  intros Hne. induction es as [|[k b] es IH]; cbn [map folder_find fst snd]; [discriminate|].
  destruct (String.eqb_spec k src) as [-> | Hk]; cbn [folder_find].
  - destruct (String.eqb_spec dst n) as [-> | Hd]; [auto|].
    intros Hf. destruct (IH Hf) as [-> | [Hn Hf']]; [auto|].
    right. split; [exact Hn|].
    destruct (String.eqb_spec src n) as [-> | _]; [congruence|exact Hf'].
  - destruct (String.eqb_spec k n) as [-> | Hkn].
    + intros Hb. right. split; [congruence|exact Hb].
    + exact IH.
Qed.

Lemma folder_find_In (es : list (string * bool)) (n : string) (b : bool) :
  folder_find n es = Some b -> In n (map fst es).
Proof.
  induction es as [|[k c] es IH]; cbn; [discriminate|].
  destruct (String.eqb_spec k n) as [-> | _]; auto.
Qed.

#[export] Instance folder_laws : FileSystemLaws folder.
Proof.
  split.
  - intros [es] fs' src dst n. cbn. unfold folder_rename. cbn.
    destruct (folder_find src es) eqn:Hsrc; [|discriminate].
    destruct (String.eqb_spec src dst) as [-> | Hne].
    + intros [= <-]. cbn.
      destruct (String.eqb_spec n dst) as [-> | Hn]; [auto|].
      intros Hf. right. split; [exact Hn|exact Hf].
    + destruct (folder_find dst es); [discriminate|].
      intros [= <-]. cbn.
      destruct (folder_find n (map _ es)) as [[]|] eqn:Hf; try discriminate.
      intros _. destruct (folder_find_renamed es src dst n Hne Hf) as [-> | [Hn Hf']]; [auto|].
      right. rewrite Hf'. auto.
  - intros [es] n. cbn.
    destruct (folder_find n es) eqn:Hf; [|discriminate].
    intros _. exact (folder_find_In es n _ Hf).
Qed.

Section SecondScan.
Context {FS : Type} `{FileSystemLaws FS}.
Variable mapping : gmap string string.

(** The lines a round prints do not depend on those printed before. *)
Lemma rename_one_out (fs : FS) (out : list event) (x : string) :
  rename_one mapping fs out x =
    let s := rename_one mapping fs [] x in
    {| disk := disk s; printed := out ++ printed s; raised := raised s |}.
Proof.
  unfold rename_one.
  destruct (is_file fs x); cbn [negb]; [|cbn; rewrite app_nil_r; reflexivity].
  destruct (Re.re_match serial_re (candidate_code x)); cbn [negb];
    [|cbn; rewrite app_nil_r; reflexivity].
  destruct (mapping !! candidate_code x) as [title|]; [|reflexivity].
  destruct (Path.with_name _) as [e|new_path]; [cbn; rewrite app_nil_r; reflexivity|].
  destruct (rename fs x new_path); reflexivity.
Qed.

Lemma rename_loop_out (names : list string) (fs : FS) (out : list event) :
  rename_loop mapping names fs out =
    let s := rename_loop mapping names fs [] in
    {| disk := disk s; printed := out ++ printed s; raised := raised s |}.
Proof.
  revert fs out. induction names as [|x names IH]; intros fs out.
  - cbn. rewrite app_nil_r. reflexivity.
  - cbn [rename_loop]. rewrite (rename_one_out fs out x). cbn zeta. cbn [raised disk printed].
    destruct (raised (rename_one mapping fs [] x)) eqn:Hr; [cbn zeta; rewrite Hr; reflexivity|].
    rewrite (IH _ (out ++ _)%list), (IH _ (printed _)). cbn zeta. cbn [raised disk printed].
    rewrite app_assoc. reflexivity.
Qed.

(** The ways a round can end. *)
Lemma rename_one_cases (fs : FS) (x : string) :
  let s := rename_one mapping fs [] x in
  (disk s = fs /\ raised s = None /\ forallb is_not_found (printed s) = true /\
     (is_file fs x = true -> renamable mapping x = false)) \/
  (exists e, raised s = Some e) \/
  (exists e, printed s = [ErrorRenaming x e]) \/
  (exists title, is_file fs x = true /\
     Re.re_match serial_re (candidate_code x) = true /\
     mapping !! candidate_code x = Some title /\
     rename fs x (new_name_of title x) = inr (disk s) /\ raised s = None).
Proof.
  unfold rename_one, renamable.
  destruct (is_file fs x) eqn:Hf; cbn [negb]; [|left; cbn; intuition discriminate].
  destruct (Re.re_match serial_re (candidate_code x)) eqn:Hm; cbn [negb andb];
    [|left; cbn; auto].
  destruct (mapping !! candidate_code x) as [title|] eqn:Hmap; [|left; cbn; auto].
  unfold Path.with_name.
  destruct (PyStr.is_empty _ || String.eqb _ "."); cbn [Raise Ok].
  - right. left. eexists. reflexivity.
  - destruct (rename fs x (new_name_of title x)) as [e|fs'] eqn:Hr.
    + right. right. left. eexists. reflexivity.
    + right. right. right. exists title. cbn. auto.
Qed.

(** After a scan with no exception and no rename error, a regular file is a
    target of the scan, or was there at the start and is not renamable if
    the scan came to it. *)
Lemma first_scan_files (names0 names : list string) (fs fs1 : FS) (out1 : list event) :
  incl names names0 ->
  rename_loop mapping names fs [] = {| disk := fs1; printed := out1; raised := None |} ->
  forallb (fun ev => negb (is_error ev)) out1 = true ->
  forall n, is_file fs1 n = true ->
    is_target mapping names0 n \/
    (is_file fs n = true /\ (In n names -> renamable mapping n = false)).
Proof.
  revert fs fs1 out1. induction names as [|x names IH]; intros fs fs1 out1 Hincl Hloop Herr n Hn.
  - injection Hloop as <- _. right. split; [exact Hn|intros []].
  - cbn [rename_loop] in Hloop.
    assert (Hx : In x names0) by (apply Hincl; left; reflexivity).
    assert (Hincl' : incl names names0) by (intros y Hy; apply Hincl; right; exact Hy).
    destruct (raised (rename_one mapping fs [] x)) eqn:Hr.
    { rewrite Hloop in Hr. discriminate Hr. }
    rewrite rename_loop_out in Hloop. cbn zeta in Hloop.
    destruct (rename_loop mapping names (disk (rename_one mapping fs [] x)) [])
      as [fs2 out2 r2] eqn:Hrest.
    cbn [disk printed raised] in Hloop. injection Hloop as -> <- ->.
    rewrite forallb_app in Herr. apply andb_prop in Herr as [Herr1 Herr2].
    specialize (IH _ _ _ Hincl' Hrest Herr2 n Hn).
    destruct IH as [Ht | [Hfile Hnot]]; [left; exact Ht|].
    destruct (rename_one_cases fs x) as [(Hd & _ & _ & Hren) | [[e He] | [[e He] | Hok]]].
    + rewrite Hd in Hfile. right. split; [exact Hfile|].
      intros [<- | Hin]; [apply Hren; exact Hfile|apply Hnot; exact Hin].
    + rewrite He in Hr. discriminate Hr.
    + rewrite He in Herr1. discriminate Herr1.
    + destruct Hok as (title & Hfx & Hm & Hmap & Hren & _).
      destruct (rename_files _ _ _ _ n Hren Hfile) as [-> | [Hne Hfn]].
      * left. exists x, title. auto.
      * right. split; [exact Hfn|].
        intros [<- | Hin]; [congruence|apply Hnot; exact Hin].
Qed.

(** A scan over files none of which is renamable changes nothing and
    prints only that codes were not found. *)
Lemma scan_nothing_renamable (names : list string) (fs : FS) :
  (forall n, In n names -> is_file fs n = true -> renamable mapping n = false) ->
  exists out2,
    rename_loop mapping names fs [] = {| disk := fs; printed := out2; raised := None |} /\
    forallb is_not_found out2 = true.
Proof.
  induction names as [|x names IH]; intros Hnames.
  - exists []. split; reflexivity.
  - destruct IH as [out2 [Hloop Hout]]; [intros n Hn; apply Hnames; right; exact Hn|].
    cbn [rename_loop].
    assert (Hx : is_file fs x = true -> renamable mapping x = false)
      by (apply Hnames; left; reflexivity).
    assert (Hone : exists o, rename_one mapping fs [] x =
                     {| disk := fs; printed := o; raised := None |} /\
                   forallb is_not_found o = true).
    { unfold rename_one, renamable in *.
      destruct (is_file fs x); cbn [negb]; [|exists []; split; reflexivity].
      specialize (Hx eq_refl).
      destruct (Re.re_match serial_re (candidate_code x)); cbn [negb andb] in *;
        [|exists []; split; reflexivity].
      destruct (mapping !! candidate_code x); [discriminate Hx|].
      eexists. split; reflexivity. }
    destruct Hone as [o [-> Ho]]. cbn [raised disk printed].
    rewrite rename_loop_out, Hloop. cbn zeta. cbn [raised disk printed].
    exists (o ++ out2)%list. split; [reflexivity|].
    rewrite forallb_app, Ho, Hout. reflexivity.
Qed.

(** C8, as amended.  Let a first scan end with no exception and no rename
    error, so that every matched file was renamed, and let no name given
    by that scan be renamable in its turn.  Then a second scan, over the
    directory the first one left, renames nothing: it leaves the directory
    as it is, raises nothing, and prints only that codes were not found. *)
Theorem second_scan_renames_nothing (fs0 fs1 : FS) (out1 : list event) :
  rename_ps2_files mapping fs0 [] = {| disk := fs1; printed := out1; raised := None |} ->
  forallb (fun ev => negb (is_error ev)) out1 = true ->
  (forall src title,
     In src (iterdir fs0) ->
     Re.re_match serial_re (candidate_code src) = true ->
     mapping !! candidate_code src = Some title ->
     renamable mapping (new_name_of title src) = false) ->
  exists out2,
    rename_ps2_files mapping fs1 [] = {| disk := fs1; printed := out2; raised := None |} /\
    forallb is_not_found out2 = true.
Proof.
  intros Hfirst Herr Htargets. unfold rename_ps2_files in *.
  apply scan_nothing_renamable. intros n _ Hn.
  destruct (first_scan_files (iterdir fs0) (iterdir fs0) fs0 fs1 out1
              (incl_refl _) Hfirst Herr n Hn) as [Ht | [Hf0 Hnot]].
  - destruct Ht as (src & title & Hin & Hm & Hmap & ->). eapply Htargets; eassumption.
  - apply Hnot, iterdir_complete, Hf0.
Qed.

End SecondScan.

Lemma second_scan_renames_nothing_witness :
  let m : gmap string string := {["SCUS-12345" := "Example Game"]} in
  let d1 := {| folder_entries := [("Example Game.iso", true); ("notes.txt", true)] |} in
  exists out2,
    rename_ps2_files m d1 [] = {| disk := d1; printed := out2; raised := None |} /\
    forallb is_not_found out2 = true.
Proof.
  intros m d1.
  apply (@second_scan_renames_nothing folder _ _ m
           {| folder_entries := [("SCUS-12345 (USA).iso", true); ("notes.txt", true)] |}
           d1 [Renamed "SCUS-12345 (USA).iso" "Example Game.iso"]).
  - vm_compute. reflexivity.
  - reflexivity.
  - intros src title [<- | [<- | []]] Hm Hmap.
    + vm_compute in Hmap. injection Hmap as <-. vm_compute. reflexivity.
    + vm_compute in Hm. discriminate Hm.
Defined.

(** C8 as stated fails when a title is itself a serial code and a key: the
    first scan renames every matched file, and the second scan renames the
    file the first one made. *)
Lemma second_scan_renames_again :
  let m : gmap string string := {["SCUS-12345" := "SLUS-54321"; "SLUS-54321" := "Final"]} in
  let d0 := {| folder_entries := [("SCUS-12345.iso", true)] |} in
  let d1 := {| folder_entries := [("SLUS-54321.iso", true)] |} in
  let d2 := {| folder_entries := [("Final.iso", true)] |} in
  rename_ps2_files m d0 [] =
    {| disk := d1; printed := [Renamed "SCUS-12345.iso" "SLUS-54321.iso"]; raised := None |} /\
  Re.re_match serial_re (candidate_code "SLUS-54321.iso") = true /\
  rename_ps2_files m d1 [] =
    {| disk := d2; printed := [Renamed "SLUS-54321.iso" "Final.iso"]; raised := None |} /\
  d2 <> d1.
Proof.
  cbv zeta. split; [vm_compute; reflexivity|]. split; [vm_compute; reflexivity|].
  split; [vm_compute; reflexivity|]. discriminate.
Qed.

(** ** The Title Selector *)

Lemma strip_as_text (v : json) (s : string) :
  as_text v s -> Py.strip (Py.or_else v (JStr "")) = Ok (PyStr.strip s).
Proof. unfold as_text. intros ->. reflexivity. Qed.

Lemma lower_as_text (v : json) (s : string) :
  as_text v s -> Py.lower (Py.or_else v (JStr "")) = Ok (PyStr.lower s).
Proof. unfold as_text. intros ->. reflexivity. Qed.

Lemma scan_translations_step (trans : json) (rest : list json) (p : string * string)
    (default_title : string) :
  (exists l v, Py.get trans "language" = Ok l /\ as_text l (fst p) /\
               Py.get trans "value" = Ok v /\ as_text v (snd p)) ->
  scan_translations (trans :: rest) default_title =
    if qualifies p then Ok (PyStr.strip (snd p)) else scan_translations rest default_title.
Proof.
  intros (l & v & Hl & Hlt & Hv & Hvt). cbn [scan_translations].
  rewrite Hl. cbn [rbind Ok]. rewrite (lower_as_text _ _ Hlt). cbn [rbind Ok].
  rewrite Hv. cbn [rbind Ok]. rewrite (strip_as_text _ _ Hvt). cbn [rbind Ok].
  unfold qualifies. rewrite andb_comm. reflexivity.
Qed.

Lemma scan_translations_none (ts : list json) (pairs : list (string * string))
    (default_title : string) :
  reads_as ts pairs -> forallb (fun p => negb (qualifies p)) pairs = true ->
  scan_translations ts default_title = Ok default_title.
Proof.
  induction 1 as [|trans p ts pairs Hp _ IH]; [reflexivity|].
  cbn [forallb]. intros Hq. apply andb_prop in Hq as [Hq Hrest].
  rewrite (scan_translations_step _ _ p _ Hp).
  apply negb_true_iff in Hq. rewrite Hq. exact (IH Hrest).
Qed.

Lemma scan_translations_first (ts : list json) (before after : list (string * string))
    (p : string * string) (default_title : string) :
  reads_as ts (before ++ p :: after) ->
  forallb (fun p => negb (qualifies p)) before = true -> qualifies p = true ->
  scan_translations ts default_title = Ok (PyStr.strip (snd p)).
Proof.
  revert ts. induction before as [|q before IH]; intros ts Hts Hb Hp.
  - inversion Hts as [|trans p' ts' pairs' Hq _]; subst.
    rewrite (scan_translations_step _ _ p _ Hq), Hp. reflexivity.
  - inversion Hts as [|trans p' ts' pairs' Hq Hrest]; subst.
    cbn [forallb] in Hb. apply andb_prop in Hb as [Hq' Hb].
    rewrite (scan_translations_step _ _ q _ Hq).
    apply negb_true_iff in Hq'. rewrite Hq'. exact (IH _ Hrest Hb Hp).
Qed.

(** C2.  Let the name structure of an entry hold the default title
    [default] and translations that read as [pairs].  Then [pick_title]
    returns the trimmed value of the first pair, in order, that qualifies,
    and the trimmed default when none does.  With French X and English (US)
    Y over the default Z it returns Y; with no English tag, Z; with nothing
    but empty strings, the empty string. *)
Theorem pick_title_spec :
  (forall (entry n d t : json) (ts : list json) (pairs : list (string * string))
          (default : string),
     Py.get entry "name" = Ok n ->
     Py.get (Py.or_else n (JObj [])) "default_value" = Ok d -> as_text d default ->
     Py.get (Py.or_else n (JObj [])) "translations" = Ok t ->
     Py.iter (Py.or_else t (JArr [])) = Ok ts -> reads_as ts pairs ->
     (forall before p after,
        pairs = (before ++ p :: after)%list ->
        forallb (fun q => negb (qualifies q)) before = true -> qualifies p = true ->
        pick_title entry = Ok (PyStr.strip (snd p))) /\
     (forallb (fun q => negb (qualifies q)) pairs = true ->
        pick_title entry = Ok (PyStr.strip default))) /\
  pick_title (named "Z" [translation "French" "X"; translation "English (US)" "Y"]) = Ok "Y" /\
  pick_title (named "Z" [translation "French" "X"; translation "German" "Y"]) = Ok "Z" /\
  pick_title (named "" [translation "" ""; translation "English" ""]) = Ok "".
Proof.
  split; [|repeat split; reflexivity].
  intros entry n d t ts pairs default Hn Hd Hdt Ht Hts Hpairs.
  assert (Hpick : pick_title entry = scan_translations ts (PyStr.strip default)).
  { unfold pick_title. rewrite Hn. cbn [rbind Ok]. rewrite Hd. cbn [rbind Ok].
    rewrite (strip_as_text _ _ Hdt). cbn [rbind Ok]. rewrite Ht. cbn [rbind Ok].
    rewrite Hts. reflexivity. }
  rewrite Hpick. split.
  - intros before p after -> Hb Hp. eapply scan_translations_first; eassumption.
  - intros Hnone. eapply scan_translations_none; eassumption.
Qed.

Lemma pick_title_spec_witness :
  pick_title (named " Z " [translation "French" "X"; translation "ENGLISH" "  ";
                           translation "British English" " Y "; translation "English" "W"])
  = Ok "Y".
Proof.
  refine (proj1 (proj1 pick_title_spec
    (named " Z " [translation "French" "X"; translation "ENGLISH" "  ";
                  translation "British English" " Y "; translation "English" "W"])
    _ _ _ _ [("French", "X"); ("ENGLISH", "  "); ("British English", " Y "); ("English", "W")]
    " Z " eq_refl eq_refl eq_refl eq_refl eq_refl _)
    [("French", "X"); ("ENGLISH", "  ")] ("British English", " Y ") [("English", "W")]
    eq_refl eq_refl eq_refl).
  repeat constructor; eexists _, _; repeat split; reflexivity.
Defined.

(** ** The Mapping Builder: one entry *)

Lemma is_empty_false (s : string) : PyStr.is_empty s = false <-> s <> "".
Proof. destruct s; cbn; split; congruence. Qed.

Lemma py_strip_inv (v : json) (s : string) :
  Py.strip v = Ok s -> exists x, v = JStr x /\ s = PyStr.strip x.
Proof. destruct v; cbn; try discriminate. intros [= <-]. eauto. Qed.

Lemma strip_trimmed (x : string) : trimmed (PyStr.strip x).
Proof. destruct (strip_spec x) as (_ & Hh & Hl). split; assumption. Qed.

(** The ways a round of the loop over the entries can end without an
    exception: the state is as before, or the entry's serial was new and
    its title not empty, and the two are recorded. *)
Lemma process_entry_cases (st st' : build_state) (entry : json) :
  process_entry st entry = Ok st' ->
  st' = st \/
  exists serial title,
    entry_serial entry = Ok (Some serial) /\ (serial ∉ seen_ids st) /\
    pick_title entry = Ok title /\ title <> "" /\
    st' = {| mapping := <[serial := title]> (mapping st);
             seen_ids := {[serial]} ∪ seen_ids st |}.
Proof.
  unfold process_entry.
  destruct (entry_serial entry) as [e|[serial|]]; cbn [rbind]; [discriminate| |intros [= <-]; auto].
  destruct (decide (serial ∈ seen_ids st)) as [Hin|Hnin]; [intros [= <-]; auto|].
  destruct (pick_title entry) as [e|title]; cbn [rbind]; [discriminate|].
  destruct (PyStr.is_empty title) eqn:Ht; cbn [negb]; intros [= <-]; [auto|].
  right. exists serial, title. apply is_empty_false in Ht. auto.
Qed.

Lemma entry_serial_shape (entry : json) (serial : string) :
  entry_serial entry = Ok (Some serial) ->
  exists t_type t_num,
    serial = t_type ++ "-" ++ t_num /\
    t_type <> "" /\ t_num <> "" /\ trimmed t_type /\ trimmed t_num.
Proof.
  unfold entry_serial, Ok.
  destruct (Py.get entry "systems") as [|sys]; cbn [rbind]; [discriminate|].
  destruct (Py.str_in _ _) as [|[]]; cbn [rbind negb]; [discriminate| |discriminate].
  destruct (Py.get entry "content_type") as [|ct]; cbn [rbind]; [discriminate|].
  destruct (Py.lower _) as [|content_type]; cbn [rbind]; [discriminate|].
  destruct (String.eqb content_type "game"); cbn [negb]; [|discriminate].
  destruct (Py.get entry "title_id_type") as [|ty]; cbn [rbind]; [discriminate|].
  destruct (Py.strip (Py.or_else ty _)) as [|t_type] eqn:Hty; cbn [rbind]; [discriminate|].
  destruct (Py.get entry "title_id_number") as [|nu]; cbn [rbind]; [discriminate|].
  destruct (Py.strip (Py.or_else nu _)) as [|t_num] eqn:Hnu; cbn [rbind]; [discriminate|].
  destruct (PyStr.is_empty t_type) eqn:Et; cbn [negb andb]; [discriminate|].
  destruct (PyStr.is_empty t_num) eqn:En; cbn [negb]; [discriminate|].
  intros [= <-]. exists t_type, t_num.
  fold (@Ok string) in Hty, Hnu.
  apply py_strip_inv in Hty as (x & _ & ->). apply py_strip_inv in Hnu as (y & _ & ->).
  apply is_empty_false in Et, En.
  repeat split; auto; apply strip_trimmed.
Qed.

(** Once a serial is seen, no later round changes its title or forgets
    it. *)
Lemma process_entry_keeps (st st' : build_state) (entry : json) (serial : string) :
  serial ∈ seen_ids st -> process_entry st entry = Ok st' ->
  serial ∈ seen_ids st' /\ mapping st' !! serial = mapping st !! serial.
Proof.
  intros Hseen Hstep.
  destruct (process_entry_cases _ _ _ Hstep) as [-> | (s & t & _ & Hnew & _ & _ & ->)]; [auto|].
  cbn. split; [set_solver|].
  apply lookup_insert_ne. intros ->. contradiction.
Qed.

Lemma process_entries_keeps (st st' : build_state) (entries : list json) (serial : string) :
  serial ∈ seen_ids st -> process_entries st entries = Ok st' ->
  serial ∈ seen_ids st' /\ mapping st' !! serial = mapping st !! serial.
Proof.
  revert st. induction entries as [|entry rest IH]; intros st Hseen; cbn [process_entries].
  - intros [= <-]. auto.
  - destruct (process_entry st entry) as [|st1] eqn:Hstep; cbn [rbind]; [discriminate|].
    intros Hrest. destruct (process_entry_keeps _ _ _ _ Hseen Hstep) as [Hseen1 Hmap1].
    destruct (IH _ Hseen1 Hrest) as [Hseen' Hmap']. split; [exact Hseen'|congruence].
Qed.

Lemma process_page_entries (st st' : build_state) (data next : json) :
  process_page st data = Ok (st', next) ->
  Py.get data "next" = Ok next /\
  exists entries, process_entries st entries = Ok st'.
Proof.
  unfold process_page.
  destruct (Py.get_default data "results" (JArr [])) as [|results]; cbn [rbind]; [discriminate|].
  destruct (Py.iter results) as [|entries]; cbn [rbind]; [discriminate|].
  destruct (process_entries st entries) as [|st1] eqn:Hst; cbn [rbind]; [discriminate|].
  destruct (Py.get data "next") as [|nxt]; cbn [rbind]; [discriminate|].
  intros [= <- <-]. split; [reflexivity|]. exists entries. exact Hst.
Qed.

Section BuilderFacts.
Context {W : Type} `{Network W}.

(** A property of the state that every round over an entry keeps holds of
    the state the loop over the pages ends with. *)
Lemma fetch_loop_invariant (P : build_state -> Prop) :
  (forall st entry st', P st -> process_entry st entry = Ok st' -> P st') ->
  forall fuel w reqs url st st',
    P st -> outcome (fetch_loop fuel w reqs url st) = Some (Ok st') -> P st'.
Proof.
  intros Hstep.
  assert (Hentries : forall entries st st',
            P st -> process_entries st entries = Ok st' -> P st').
  { induction entries as [|entry rest IH]; intros st st' HP; cbn [process_entries].
    - intros [= <-]. exact HP.
    - destruct (process_entry st entry) as [|st1] eqn:H1; cbn [rbind]; [discriminate|].
      apply IH. eapply Hstep; eassumption. }
  induction fuel as [|fuel IH]; intros w reqs url st st' HP; cbn [fetch_loop];
    destruct (Py.truthy url); cbn [negb outcome]; try (intros [= <-]; exact HP);
    try discriminate.
  destruct url; cbn [outcome]; try discriminate.
  destruct (fetch_json w s) as [w' [e|data]]; cbn [outcome]; [discriminate|].
  destruct (process_page st data) as [e|[st1 next]] eqn:Hpage; cbn [outcome]; [discriminate|].
  apply process_page_entries in Hpage as [_ [entries Hst1]].
  apply IH. eapply Hentries; eassumption.
Qed.

End BuilderFacts.

(** ** The Mapping Builder: what it records *)

(** C1 as stated fails: an entry whose type is X and whose number is 1 is
    recorded under the key X-1. *)
Lemma recorded_key_outside_format :
  let site := {| site_pages :=
                   [(START_URL, page [catalog_entry "PlayStation 2" "game" "X" "1" "T"] JNull)] |} in
  exists b out m,
    build_ps2_title_mapping 1 site = (b, out, Some (Ok m)) /\
    m !! "X-1" = Some "T" /\
    ~ serial_code_format "X-1".
Proof.
  intros site. eexists _, _, _. split; [vm_compute; reflexivity|].
  split; [vm_compute; reflexivity|].
  intros (letters & digits & Heq & Hl & Hd & _).
  apply (f_equal String.length) in Heq.
  rewrite !length_append, Hl, Hd in Heq. cbn in Heq. lia.
Qed.

(** ** The Mapping Builder: the loop over the pages *)

Section Pagination.
Context {W : Type} `{Network W}.

Lemma truthy_str (u : string) : u <> "" -> Py.truthy (JStr u) = true.
Proof. destruct u; cbn; congruence. Qed.

(** The rounds of [reaches] are rounds of [fetch_loop], one unit of fuel
    each. *)
Lemma fetch_loop_reaches (w w' : W) (url url' : json) (st st' : build_state)
    (visited : list (string * json)) :
  reaches w url st visited w' url' st' ->
  forall fuel reqs,
    fetch_loop (length visited + fuel) w reqs url st =
    fetch_loop fuel w' (reqs ++ map fst visited) url' st'.
Proof.
  induction 1 as [w url st | w w1 w' u data next url' st st1 st' visited Hu Hfetch Hpage _ IH];
    intros fuel reqs.
  - cbn. rewrite app_nil_r. reflexivity.
  - cbn [length Nat.add fetch_loop map fst]. rewrite (truthy_str u Hu). cbn [negb].
    rewrite Hfetch. unfold Ok in Hpage |- *. rewrite Hpage, IH, <- app_assoc. reflexivity.
Qed.

Lemma reaches_linked (w w' : W) (url url' : json) (st st' : build_state)
    (visited : list (string * json)) :
  reaches w url st visited w' url' st' -> linked visited url'.
Proof.
  induction 1 as [w url st | w w1 w' u data next url' st st1 st' visited Hu Hfetch Hpage Hrest IH];
    [exact I|].
  cbn [linked]. split; [|exact IH].
  apply process_page_entries in Hpage as [-> _].
  inversion Hrest; subst; reflexivity.
Qed.

Lemma fetch_loop_requests (fuel : nat) (w : W) (reqs : list string) (url : json)
    (st : build_state) :
  exists more, requests (fetch_loop fuel w reqs url st) = (reqs ++ more)%list /\
    (Py.truthy url = true ->
     outcome (fetch_loop fuel w reqs url st) = None \/
     (exists e, outcome (fetch_loop fuel w reqs url st) = Some (Raise e)) \/
     more <> []).
Proof.
  revert w reqs url st. induction fuel as [|fuel IH]; intros w reqs url st; cbn [fetch_loop];
    destruct (Py.truthy url) eqn:Hu; cbn [negb requests outcome];
    try (exists []; rewrite app_nil_r; split; [reflexivity|]; intros; auto; discriminate).
  destruct url; try (exists []; rewrite app_nil_r; split; [reflexivity|]; intros _;
                     right; left; eexists; reflexivity).
  destruct (fetch_json w s) as [w' [e|data]]; cbn [requests outcome].
  - exists [s]. split; [reflexivity|]. intros _. right. left. eexists. reflexivity.
  - destruct (process_page st data) as [e|[st1 next]]; cbn [requests outcome].
    + exists [s]. split; [reflexivity|]. intros _. right. left. eexists. reflexivity.
    + destruct (IH w' (reqs ++ [s])%list next st1) as [more [Hreq _]].
      exists (s :: more). rewrite Hreq, <- app_assoc. split; [reflexivity|].
      intros _. right. right. discriminate.
Qed.

(** C9.  Let the remote end serve, from [START_URL] on, the pages
    [visited], each processed without an exception and each but the last
    with a non-empty string for [next], and let the last page's [next] be
    false: absent, null or empty.  Then with fuel for that many rounds the
    loop ends; it has requested the URLs of these pages, in order and no
    other, each page's [next] being the URL requested after it; and the
    builder returns the mapping built from them.  Conversely a loop that
    ends without a request and without an exception had a false URL. *)
Theorem pagination_stops_at_last_page (w w' : W) (url' : json) (st' : build_state)
    (visited : list (string * json)) :
  reaches w (JStr START_URL) build_init visited w' url' st' ->
  Py.truthy url' = false ->
  (forall fuel, length visited <= fuel ->
     fetch_loop fuel w [] (JStr START_URL) build_init =
       {| world := w'; requests := map fst visited; outcome := Some (Ok st') |} /\
     build_ps2_title_mapping fuel w =
       ({| world := w'; requests := map fst visited; outcome := Some (Ok st') |},
        [Scanning; Found (size (mapping st'))], Some (Ok (mapping st')))) /\
  (exists data rest, visited = (START_URL, data) :: rest) /\
  linked visited url' /\
  (forall items, Py.assoc "next" items = None -> Py.get (JObj items) "next" = Ok JNull) /\
  Py.truthy JNull = false /\ Py.truthy (JStr "") = false /\
  (forall fuel w0 reqs url st,
     fetch_loop fuel w0 reqs url st =
       {| world := w0; requests := reqs; outcome := Some (Ok st) |} ->
     Py.truthy url = false).
Proof.
  intros Hreach Hfalse.
  assert (Hloop : forall fuel, length visited <= fuel ->
            fetch_loop fuel w [] (JStr START_URL) build_init =
              {| world := w'; requests := map fst visited; outcome := Some (Ok st') |}).
  { intros fuel Hfuel.
    replace fuel with (length visited + (fuel - length visited)) by lia.
    rewrite (fetch_loop_reaches _ _ _ _ _ _ _ Hreach).
    destruct (fuel - length visited); cbn [fetch_loop]; rewrite Hfalse; reflexivity. }
  split.
  { intros fuel Hfuel. split; [exact (Hloop fuel Hfuel)|].
    unfold build_ps2_title_mapping. rewrite (Hloop fuel Hfuel). reflexivity. }
  split.
  { inversion Hreach; subst; [discriminate Hfalse|eauto]. }
  split; [exact (reaches_linked _ _ _ _ _ _ _ Hreach)|].
  split; [intros items Hnone; cbn; rewrite Hnone; reflexivity|].
  split; [reflexivity|]. split; [reflexivity|].
  intros fuel w0 reqs url st Hstop.
  destruct (Py.truthy url) eqn:Hu; [|reflexivity].
  destruct (fetch_loop_requests fuel w0 reqs url st) as [more [Hreq Hmore]].
  rewrite Hstop in Hreq, Hmore. cbn [requests outcome] in Hreq, Hmore.
  destruct (Hmore Hu) as [Hnone | [[e He] | Hne]];
    [discriminate Hnone | unfold Ok, Raise in He; discriminate He |].
  apply (f_equal (@length string)) in Hreq. rewrite length_app in Hreq.
  destruct more; [congruence|cbn in Hreq; lia].
Qed.

Lemma main_build_raises {FS : Type} `{FileSystem FS} (fuel : nat) (w : W) (fs : FS) (e : exn) :
  outcome (fetch_loop fuel w [] (JStr START_URL) build_init) = Some (Raise e) ->
  main fuel w fs =
    {| net := fetch_loop fuel w [] (JStr START_URL) build_init;
       files := {| disk := fs; printed := [Scanning]; raised := Some e |};
       finished := true |}.
Proof.
  intros Hout. unfold main, build_ps2_title_mapping. unfold Raise in Hout. rewrite Hout.
  reflexivity.
Qed.

(** C7.  Let the loop over the pages have come, after the pages [visited],
    to a URL whose fetch fails with [e]: the request, the decoding or the
    parsing.  Then, given fuel for these rounds, the builder raises [e] and
    returns no mapping, and [main] ends with [e] raised, the directory as
    it was and no line of the Renamer printed. *)
Theorem fetch_failure_aborts_run {FS : Type} `{FileSystem FS}
    (w w1 w2 : W) (u : string) (st1 : build_state) (visited : list (string * json))
    (e : exn) (fuel : nat) (fs : FS) :
  reaches w (JStr START_URL) build_init visited w1 (JStr u) st1 ->
  u <> "" ->
  fetch_json w1 u = (w2, Raise e) ->
  length visited < fuel ->
  build_ps2_title_mapping fuel w =
    ({| world := w2; requests := map fst visited ++ [u]; outcome := Some (Raise e) |},
     [Scanning], Some (Raise e)) /\
  main fuel w fs =
    {| net := {| world := w2; requests := map fst visited ++ [u]; outcome := Some (Raise e) |};
       files := {| disk := fs; printed := [Scanning]; raised := Some e |};
       finished := true |}.
Proof.
  intros Hreach Hu Hfetch Hfuel.
  assert (Hloop : fetch_loop fuel w [] (JStr START_URL) build_init =
            {| world := w2; requests := map fst visited ++ [u]; outcome := Some (Raise e) |}).
  { replace fuel with (length visited + S (fuel - length visited - 1)) by lia.
    rewrite (fetch_loop_reaches _ _ _ _ _ _ _ Hreach).
    cbn [fetch_loop]. rewrite (truthy_str u Hu). cbn [negb].
    unfold Raise in Hfetch |- *. rewrite Hfetch. reflexivity. }
  split.
  - unfold build_ps2_title_mapping. rewrite Hloop. reflexivity.
  - rewrite (main_build_raises fuel w fs e); rewrite Hloop; reflexivity.
Qed.

End Pagination.

Lemma pagination_stops_at_last_page_witness :
  let p1 := page [catalog_entry "PlayStation 2" "game" "SCUS" "12345" "First"]
                 (JStr "https://api.serialstation.com/titles/?page=2") in
  let p2 := page [catalog_entry "PlayStation 2" "game" "SLUS" "00001" "Second"] JNull in
  let site := {| site_pages :=
                   [(START_URL, p1);
                    ("https://api.serialstation.com/titles/?page=2", p2)] |} in
  requests (fetch_loop 2 site [] (JStr START_URL) build_init) =
    [START_URL; "https://api.serialstation.com/titles/?page=2"] /\
  exists st, outcome (fetch_loop 2 site [] (JStr START_URL) build_init) = Some (Ok st) /\
             mapping st !! "SLUS-00001" = Some "Second".
Proof.
  intros p1 p2 site.
  assert (Hreach : exists st',
            reaches site (JStr START_URL) build_init
              [(START_URL, p1); ("https://api.serialstation.com/titles/?page=2", p2)]
              site JNull st' /\ mapping st' !! "SLUS-00001" = Some "Second").
  { eexists. split.
    - eapply reaches_step; [discriminate | reflexivity | vm_compute; reflexivity |].
      eapply reaches_step; [discriminate | reflexivity | vm_compute; reflexivity |].
      apply reaches_here.
    - vm_compute. reflexivity. }
  destruct Hreach as (st' & Hreach & Hlook).
  destruct (pagination_stops_at_last_page site site JNull st' _ Hreach eq_refl) as [Hrun _].
  destruct (Hrun 2 (le_n 2)) as [Hloop _].
  rewrite Hloop. split; [reflexivity|]. exists st'. split; [reflexivity|exact Hlook].
Defined.

Lemma fetch_failure_aborts_run_witness :
  let p1 := page [catalog_entry "PlayStation 2" "game" "SCUS" "12345" "First"]
                 (JStr "https://api.serialstation.com/titles/?page=2") in
  let site := {| site_pages := [(START_URL, p1)] |} in
  let d := {| folder_entries := [("SCUS-12345.iso", true)] |} in
  files (main 2 site d) =
    {| disk := d; printed := [Scanning];
       raised := Some (FetchError "HTTP Error 404: Not Found") |}.
Proof.
  intros p1 site d.
  assert (Hreach : exists st1,
            reaches site (JStr START_URL) build_init [(START_URL, p1)] site
              (JStr "https://api.serialstation.com/titles/?page=2") st1).
  { eexists. eapply reaches_step; [discriminate | reflexivity | vm_compute; reflexivity |].
    apply reaches_here. }
  destruct Hreach as (st1 & Hreach).
  destruct (fetch_failure_aborts_run site site site
              "https://api.serialstation.com/titles/?page=2" st1 _
              (FetchError "HTTP Error 404: Not Found") 2 d Hreach
              ltac:(discriminate) eq_refl (le_n 2)) as [_ Hmain].
  rewrite Hmain. reflexivity.
Defined.

(** * Further properties of the script *)

(** ** [sanitize_filename]: its fixed points *)

Lemma filter_id (p : ascii -> bool) (s : string) :
  PyStr.all p s = true -> PyStr.filter p s = s.
Proof.
  induction s as [|c s IH]; [reflexivity|].
  cbn. intros Hs. apply andb_prop in Hs as [Hc Hs]. rewrite Hc, (IH Hs). reflexivity.
Qed.

Lemma rstrip_id (s : string) :
  (forall c, PyStr.last s = Some c -> PyStr.isspace c = false) -> PyStr.rstrip s = s.
Proof.
  induction s as [|a s IH]; [reflexivity|].
  intros Hlast. cbn [PyStr.rstrip]. destruct s as [|b s].
  - cbn. rewrite (Hlast a eq_refl). reflexivity.
  - rewrite IH; [reflexivity|]. intros c Hc. apply Hlast. exact Hc.
Qed.

Lemma lstrip_id (s : string) :
  (forall c, PyStr.head s = Some c -> PyStr.isspace c = false) -> PyStr.lstrip s = s.
Proof.
  destruct s as [|a s]; [reflexivity|].
  intros Hhead. cbn. rewrite (Hhead a eq_refl). reflexivity.
Qed.

Lemma strip_id (s : string) : trimmed s -> PyStr.strip s = s.
Proof.
  intros [Hh Hl]. unfold PyStr.strip. rewrite (rstrip_id s Hl). apply lstrip_id, Hh.
Qed.

Lemma sanitize_legal (name : string) :
  PyStr.all legal_char (sanitize_filename name) = true.
Proof.
  unfold sanitize_filename, Re.re_sub_delete, illegal_re. rewrite sub_go_atom.
  fold legal_char.
  destruct (strip_spec (PyStr.filter legal_char name)) as [(l & r & Hk & _) _].
  pose proof (filter_all legal_char name) as Hall.
  rewrite Hk, !all_append in Hall.
  apply andb_prop in Hall as [_ Hall]. apply andb_prop in Hall as [Hall _]. exact Hall.
Qed.

Lemma sanitize_trimmed (name : string) : trimmed (sanitize_filename name).
Proof. unfold sanitize_filename. apply strip_trimmed. Qed.

Lemma sanitize_fixed (s : string) :
  PyStr.all legal_char s = true -> trimmed s -> sanitize_filename s = s.
Proof.
  intros Hlegal Htrim.
  unfold sanitize_filename, Re.re_sub_delete, illegal_re. rewrite sub_go_atom.
  fold legal_char. rewrite (filter_id _ _ Hlegal). apply strip_id, Htrim.
Qed.

(** X1.  The names [sanitize_filename] leaves as they are, are exactly the
    names that hold none of the nine characters and have white space at
    neither end. *)
Theorem sanitize_filename_fixed_points (s : string) :
  sanitize_filename s = s <-> PyStr.all legal_char s = true /\ trimmed s.
Proof.
  split.
  - intros Hs. rewrite <- Hs. split; [apply sanitize_legal|apply sanitize_trimmed].
  - intros [Hlegal Htrim]. apply sanitize_fixed; assumption.
Qed.

(** X2.  Sanitizing twice is sanitizing once. *)
Theorem sanitize_filename_idempotent (name : string) :
  sanitize_filename (sanitize_filename name) = sanitize_filename name.
Proof. apply sanitize_fixed; [apply sanitize_legal|apply sanitize_trimmed]. Qed.

(** ** Stem and extension of the new name *)

Lemma rfind_found (c : ascii) (s : string) (i : nat) :
  PyStr.rfind c s = Some i ->
  exists rest, PyStr.drop i s = String c rest /\ PyStr.rfind c rest = None.
Proof.
  revert i. induction s as [|a s IH]; intros i; cbn [PyStr.rfind]; [discriminate|].
  destruct (PyStr.rfind c s) as [j|] eqn:Hj.
  - intros [= <-]. cbn [PyStr.drop]. apply IH. reflexivity.
  - destruct (ascii_dec a c) as [->|]; [|discriminate].
    intros [= <-]. exists s. split; [reflexivity|exact Hj].
Qed.

Lemma rfind_append (c : ascii) (a rest : string) :
  PyStr.rfind c rest = None ->
  PyStr.rfind c (a ++ String c rest) = Some (String.length a).
Proof.
  intros Hrest. induction a as [|x a IH].
  - rewrite append_nil_l. cbn [PyStr.rfind]. rewrite Hrest.
    destruct (ascii_dec c c); [reflexivity|congruence].
  - rewrite append_cons. cbn [PyStr.rfind String.length]. rewrite IH. reflexivity.
Qed.

Lemma take_append (a b : string) : PyStr.take (String.length a) (a ++ b) = a.
Proof.
  induction a as [|x a IH]; [destruct b; reflexivity|].
  rewrite append_cons. cbn [String.length PyStr.take]. rewrite IH. reflexivity.
Qed.

Lemma drop_append (a b : string) : PyStr.drop (String.length a) (a ++ b) = b.
Proof.
  induction a as [|x a IH]; [destruct b; reflexivity|].
  rewrite append_cons. cbn [String.length PyStr.drop]. exact IH.
Qed.

(** What [Path.suffix] returns, when it is not empty, is an extension. *)
Lemma suffix_is_extension (name : string) :
  Path.suffix name <> "" -> is_extension (Path.suffix name).
Proof.
  unfold Path.suffix, Path.suffix_index.
  destruct (PyStr.rfind "." name) as [i|] eqn:Hi; [|congruence].
  destruct ((0 <? i) && (i <? String.length name - 1))%nat eqn:Hb; [|congruence].
  intros _. apply andb_prop in Hb as [_ Hlt]. apply Nat.ltb_lt in Hlt.
  destruct (rfind_found _ _ _ Hi) as (rest & Hdrop & Hrest).
  exists rest. split; [exact Hdrop|]. split; [|exact Hrest].
  intros ->. apply (f_equal String.length) in Hdrop.
  rewrite length_drop in Hdrop. cbn in Hdrop. lia.
Qed.

(** A non-empty stem joined to an extension splits back into the two. *)
Lemma split_joined (a ext : string) :
  a <> "" -> is_extension ext ->
  Path.stem (a ++ ext) = a /\ Path.suffix (a ++ ext) = ext.
Proof.
  intros Ha (e & -> & He & Hdot).
  assert (Hidx : Path.suffix_index (a ++ String "." e) = Some (String.length a)).
  { unfold Path.suffix_index. rewrite (rfind_append _ a e Hdot).
    rewrite length_append. cbn [String.length].
    destruct a as [|x a]; [congruence|]. destruct e as [|y e]; [congruence|].
    cbn [String.length].
    replace (0 <? S (String.length a))%nat with true by (symmetry; apply Nat.ltb_lt; lia).
    replace (S (String.length a) <? S (String.length a) + S (S (String.length e)) - 1)%nat
      with true by (symmetry; apply Nat.ltb_lt; lia).
    reflexivity. }
  unfold Path.stem, Path.suffix. rewrite Hidx.
  split; [apply take_append|apply drop_append].
Qed.

(** X3.  When a file has an extension, the name it is renamed to keeps it:
    if the sanitized title is not empty, the new name's stem is that title
    and its extension the original one; if the sanitized title is empty,
    the new name is the extension alone, which [pathlib] reads as a stem
    with no extension. *)
Theorem new_name_extension (title name : string) :
  Path.suffix name <> "" ->
  (sanitize_filename title <> "" ->
     Path.stem (new_name_of title name) = sanitize_filename title /\
     Path.suffix (new_name_of title name) = Path.suffix name) /\
  (sanitize_filename title = "" ->
     Path.stem (new_name_of title name) = Path.suffix name /\
     Path.suffix (new_name_of title name) = "").
Proof.
  intros Hext. pose proof (suffix_is_extension name Hext) as Hise.
  unfold new_name_of. split.
  - intros Hclean. apply split_joined; assumption.
  - intros ->. rewrite append_nil_l.
    destruct Hise as (e & -> & _ & Hdot).
    unfold Path.stem, Path.suffix, Path.suffix_index. cbn [PyStr.rfind]. rewrite Hdot.
    destruct (ascii_dec "." "."); [|congruence]. split; reflexivity.
Qed.

Lemma new_name_extension_witness :
  Path.stem (new_name_of "Dr. Mario: 64" "SLUS-00001 (v1.1).iso") = "Dr. Mario 64" /\
  Path.suffix (new_name_of "Dr. Mario: 64" "SLUS-00001 (v1.1).iso") = ".iso".
Proof.
  refine (proj1 (new_name_extension "Dr. Mario: 64" "SLUS-00001 (v1.1).iso" _) _);
    vm_compute; discriminate.
Defined.

(** ** Files named after a serial code *)

Lemma upper_plain (a : ascii) : PyStr.isupper_AZ a = true -> plain_char a = true.
Proof. destruct a as [[] [] [] [] [] [] [] []]; vm_compute; congruence. Qed.

Lemma digit_plain (a : ascii) : PyStr.isdigit a = true -> plain_char a = true.
Proof. destruct a as [[] [] [] [] [] [] [] []]; vm_compute; congruence. Qed.

Lemma serial_form_plain (c : string) :
  serial_form c -> PyStr.all plain_char c = true /\ c <> "".
Proof.
  intros Hc. apply serial_form_inv in Hc.
  destruct Hc as (l1 & l2 & l3 & l4 & d1 & d2 & d3 & d4 & d5 & -> &
                  L1 & L2 & L3 & L4 & D1 & D2 & D3 & D4 & D5).
  split; [|discriminate]. cbn [PyStr.all].
  rewrite (upper_plain _ L1), (upper_plain _ L2), (upper_plain _ L3), (upper_plain _ L4),
    (digit_plain _ D1), (digit_plain _ D2), (digit_plain _ D3), (digit_plain _ D4),
    (digit_plain _ D5).
  reflexivity.
Qed.

Lemma plain_without_open (c : string) :
  PyStr.all plain_char c = true -> PyStr.all (fun a => negb (Re.lit "(" a)) c = true.
Proof.
  induction c as [|a c IH]; [reflexivity|].
  cbn. intros Hc. apply andb_prop in Hc as [Ha Hc]. rewrite (IH Hc).
  unfold plain_char in Ha. apply andb_prop in Ha as [_ Ha]. rewrite Ha. reflexivity.
Qed.

Lemma append_not_empty (a b : string) : a <> "" -> a ++ b <> "".
Proof. destruct a; [congruence|]. rewrite append_cons. discriminate. Qed.

(** X4.  A file whose name is a serial code and an extension, with or
    without white space and a parenthesized region (free of newlines)
    between the two, is recognised: its candidate code is the serial code,
    and the pattern accepts it. *)
Theorem serial_named_file_recognised (c ws inner ext : string) :
  serial_form c ->
  PyStr.all PyStr.isspace ws = true ->
  PyStr.all Re.dot inner = true ->
  is_extension ext ->
  candidate_code (c ++ ext) = c /\
  candidate_code (c ++ ws ++ "(" ++ inner ++ ")" ++ ext) = c /\
  Re.re_match serial_re c = true.
Proof.
  intros Hc Hws Hin Hext.
  destruct (serial_form_plain c Hc) as [Hplain Hne].
  split; [|split].
  - unfold candidate_code, Re.re_sub_delete.
    rewrite (proj1 (split_joined c ext Hne Hext)).
    apply paren_suffix_absent, plain_without_open, Hplain.
  - unfold candidate_code, Re.re_sub_delete.
    replace (c ++ ws ++ "(" ++ inner ++ ")" ++ ext)
      with ((c ++ ws ++ "(" ++ inner ++ ")" ++ "") ++ ext).
    + rewrite (proj1 (split_joined _ ext (append_not_empty c _ Hne) Hext)).
      rewrite (paren_suffix_stripped c ws inner "" true Hplain Hws Hin eq_refl).
      apply append_nil_r.
    + rewrite !append_assoc. reflexivity.
  - apply serial_re_match. left. exact Hc.
Qed.

Lemma serial_named_file_recognised_witness :
  candidate_code "SLES-54321.bin" = "SLES-54321" /\
  candidate_code "SLES-54321  (Europe) (En,Fr) (v1.02).bin" = "SLES-54321" /\
  Re.re_match serial_re "SLES-54321" = true.
Proof.
  refine (serial_named_file_recognised "SLES-54321" "  " "Europe) (En,Fr) (v1.02" ".bin"
            _ eq_refl eq_refl _).
  - exists "SLES", "54321". repeat split; reflexivity.
  - exists "bin". split; [reflexivity|]. split; [discriminate|reflexivity].
Defined.

(** ** The Renamer: what a scan does and does not do *)

Lemma with_name_raises (n : string) (e : exn) :
  Path.with_name n = inl e -> e = ValueError /\ (n = "" \/ n = ".").
Proof.
  unfold Path.with_name. destruct n as [|a n]; cbn [PyStr.is_empty orb].
  - intros [= <-]. auto.
  - destruct (String.eqb_spec (String a n) ".") as [-> | _]; [|discriminate].
    intros [= <-]. auto.
Qed.

Section ScanFacts.
Context {FS : Type} `{FileSystem FS}.
Variable mapping : gmap string string.

(** The five ways a round can end. *)
Lemma rename_one_shape (fs : FS) (x : string) :
  let s := rename_one mapping fs [] x in
  (s = untouched fs [] /\
     (is_file fs x = false \/ Re.re_match serial_re (candidate_code x) = false)) \/
  (is_file fs x = true /\ Re.re_match serial_re (candidate_code x) = true /\
     ((mapping !! candidate_code x = None /\
       s = {| disk := fs; printed := [NotFound (candidate_code x) x]; raised := None |}) \/
      exists title, mapping !! candidate_code x = Some title /\
        (((new_name_of title x = "" \/ new_name_of title x = ".") /\
          s = {| disk := fs; printed := []; raised := Some ValueError |}) \/
         (exists e, s = {| disk := fs; printed := [ErrorRenaming x e]; raised := None |}) \/
         (exists fs', rename fs x (new_name_of title x) = inr fs' /\
            s = {| disk := fs'; printed := [Renamed x (new_name_of title x)];
                   raised := None |})))).
Proof.
  unfold rename_one, untouched.
  destruct (is_file fs x) eqn:Hf; cbn [negb]; [|left; auto].
  destruct (Re.re_match serial_re (candidate_code x)) eqn:Hm; cbn [negb]; [|left; auto].
  right. split; [reflexivity|]. split; [reflexivity|].
  destruct (mapping !! candidate_code x) as [title|] eqn:Hmap; [|left; auto].
  right. exists title. split; [reflexivity|].
  destruct (Path.with_name (new_name_of title x)) as [e|new_path] eqn:Hn.
  - left. destruct (with_name_raises _ _ Hn) as [-> Hbad]. auto.
  - right.
    assert (new_path = new_name_of title x) as ->.
    { unfold Path.with_name in Hn. destruct (_ || _); [discriminate|].
      injection Hn as <-. reflexivity. }
    destruct (rename fs x (new_name_of title x)) as [e|fs'] eqn:Hr.
    + left. exists e. reflexivity.
    + right. exists fs'. auto.
Qed.

Lemma rename_loop_cons (x : string) (names : list string) (fs : FS) :
  rename_loop mapping (x :: names) fs [] =
    let s := rename_one mapping fs [] x in
    match raised s with
    | Some _ => s
    | None =>
        let r := rename_loop mapping names (disk s) [] in
        {| disk := disk r; printed := printed s ++ printed r; raised := raised r |}
    end.
Proof.
  cbn [rename_loop]. cbn zeta.
  destruct (raised (rename_one mapping fs [] x)); [reflexivity|].
  apply rename_loop_out.
Qed.

Lemma line_justified_incl (names names0 : list string) (ev : event) :
  incl names names0 -> line_justified mapping names ev -> line_justified mapping names0 ev.
Proof.
  intros Hincl. destruct ev; cbn; try tauto.
  - intros (Hin & Hrest). split; [apply Hincl, Hin|exact Hrest].
  - intros (Hin & Hrest). split; [apply Hincl, Hin|exact Hrest].
  - intros (Hin & Hrest). split; [apply Hincl, Hin|exact Hrest].
Qed.

Lemma rename_loop_justified (names : list string) (fs : FS) :
  Forall (line_justified mapping names) (printed (rename_loop mapping names fs [])).
Proof.
  revert fs. induction names as [|x names IH]; intros fs; [constructor|].
  rewrite rename_loop_cons. cbn zeta.
  assert (Hone : Forall (line_justified mapping (x :: names))
                   (printed (rename_one mapping fs [] x))).
  { destruct (rename_one_shape fs x)
      as [[-> _] | (Hf & Hm & [[Hmap ->] | (title & Hmap & [[_ ->] | [[e ->] | [fs' [_ ->]]]])])];
      cbn [printed untouched]; repeat constructor; auto.
    - unfold renamable. rewrite Hm, Hmap. reflexivity.
    - eauto. }
  destruct (raised (rename_one mapping fs [] x)); [exact Hone|].
  cbn [printed]. apply (proj2 (Forall_app _ _ _)). split; [exact Hone|].
  eapply Forall_impl; [apply IH|].
  intros ev. apply line_justified_incl. intros y Hy. right. exact Hy.
Qed.

(** X5.  Every line a scan prints is about a name the directory listed: a
    renamed line has a candidate code that matches and is a key of the
    mapping, and its new name is that key's sanitized title followed by the
    file's extension; an error line is about a renamable name; a not-found
    line carries the file's candidate code, which matches and is no key.
    The Renamer makes up neither a file nor a title. *)
Theorem scan_lines_justified (fs : FS) :
  Forall (line_justified mapping (iterdir fs)) (printed (rename_ps2_files mapping fs [])).
Proof. apply rename_loop_justified. Qed.

End ScanFacts.

(** ** The Title Selector and the entries the builder keeps *)

Lemma scan_translations_trimmed (ts : list json) (default_title title : string) :
  trimmed default_title ->
  scan_translations ts default_title = Ok title -> trimmed title.
Proof.
  intros Hd. induction ts as [|trans ts IH]; cbn [scan_translations].
  - intros [= <-]. exact Hd.
  - destruct (Py.get trans "language") as [|l]; cbn [rbind]; [discriminate|].
    destruct (Py.lower (Py.or_else l (JStr ""))) as [|lang]; cbn [rbind]; [discriminate|].
    destruct (Py.get trans "value") as [|v]; cbn [rbind]; [discriminate|].
    destruct (Py.strip (Py.or_else v (JStr ""))) as [|title_val] eqn:Hv; cbn [rbind];
      [discriminate|].
    destruct (negb (PyStr.is_empty title_val) && PyStr.contains "english" lang); [|exact IH].
    intros [= <-]. apply py_strip_inv in Hv as (x & _ & ->). apply strip_trimmed.
Qed.

(** X9.  Whatever the entry, a title that [pick_title] returns has white
    space at neither end. *)
Theorem pick_title_trimmed (entry : json) (title : string) :
  pick_title entry = Ok title -> trimmed title.
Proof.
  unfold pick_title.
  destruct (Py.get entry "name") as [|n]; cbn [rbind]; [discriminate|].
  destruct (Py.get (Py.or_else n (JObj [])) "default_value") as [|d]; cbn [rbind];
    [discriminate|].
  destruct (Py.strip (Py.or_else d (JStr ""))) as [|default_title] eqn:Hd; cbn [rbind];
    [discriminate|].
  destruct (Py.get (Py.or_else n (JObj [])) "translations") as [|t]; cbn [rbind];
    [discriminate|].
  destruct (Py.iter (Py.or_else t (JArr []))) as [|translations]; cbn [rbind]; [discriminate|].
  apply scan_translations_trimmed.
  apply py_strip_inv in Hd as (x & _ & ->). apply strip_trimmed.
Qed.

Lemma pick_title_trimmed_witness :
  trimmed "Gran Turismo 4".
Proof.
  refine (pick_title_trimmed
    (named "  fallback " [translation "Japanese" "x"; translation "en-US English" " Gran Turismo 4 "])
    "Gran Turismo 4" _).
  reflexivity.
Defined.

(** X10.  An entry whose title comes out empty is not recorded and does
    not mark its serial as seen: the next entry with the same serial and a
    title is the one recorded. *)
Theorem untitled_entry_leaves_serial_free (st : build_state) (e1 e2 : json)
    (serial title : string) :
  entry_serial e1 = Ok (Some serial) ->
  pick_title e1 = Ok "" ->
  serial ∉ seen_ids st ->
  entry_serial e2 = Ok (Some serial) ->
  pick_title e2 = Ok title ->
  title <> "" ->
  process_entry st e1 = Ok st /\
  process_entries st [e1; e2] =
    Ok {| mapping := <[serial := title]> (mapping st);
          seen_ids := {[serial]} ∪ seen_ids st |}.
Proof.
  intros Hs1 Ht1 Hnew Hs2 Ht2 Hne.
  assert (H1 : process_entry st e1 = Ok st).
  { unfold process_entry. rewrite Hs1. cbn [rbind Ok].
    destruct (decide (serial ∈ seen_ids st)); [reflexivity|].
    rewrite Ht1. reflexivity. }
  split; [exact H1|].
  cbn [process_entries]. rewrite H1. cbn [rbind Ok].
  unfold process_entry. rewrite Hs2. cbn [rbind Ok].
  destruct (decide (serial ∈ seen_ids st)); [contradiction|].
  rewrite Ht2. cbn [rbind Ok]. apply is_empty_false in Hne. rewrite Hne. reflexivity.
Qed.

Lemma untitled_entry_leaves_serial_free_witness :
  let e1 := catalog_entry "PlayStation 2" "game" "SCUS" "12345" "   " in
  let e2 := catalog_entry "PlayStation 2" "game" "SCUS" "12345" "Second" in
  exists st, process_entries build_init [e1; e2] = Ok st /\
             mapping st !! "SCUS-12345" = Some "Second".
Proof.
  intros e1 e2. eexists. split.
  - exact (proj2 (untitled_entry_leaves_serial_free build_init e1 e2 "SCUS-12345" "Second"
                    eq_refl eq_refl (not_elem_of_empty _) eq_refl eq_refl ltac:(discriminate))).
  - apply lookup_insert_eq.
Defined.

(** ** The builder's state *)

Lemma process_entry_seen_keys (st st' : build_state) (entry : json) :
  seen_ids st = dom (mapping st) -> process_entry st entry = Ok st' ->
  seen_ids st' = dom (mapping st') /\ mapping st ⊆ mapping st'.
Proof.
  intros Hinv Hstep.
  destruct (process_entry_cases _ _ _ Hstep) as [-> | (k & t & _ & Hnew & _ & _ & ->)];
    [split; [exact Hinv|reflexivity]|].
  cbn [seen_ids mapping]. split.
  - rewrite dom_insert_L, Hinv. reflexivity.
  - apply insert_subseteq. apply not_elem_of_dom. rewrite <- Hinv. exact Hnew.
Qed.

Section BuilderState.
Context {W : Type} `{Network W}.

(** X11.  In the state the builder ends with, the serials seen are exactly
    the keys of the mapping, so the count it prints is the number of
    distinct serials recorded. *)
Theorem seen_ids_are_keys (fuel : nat) (w : W) (b : builder W) (out : list event)
    (m : gmap string string) :
  build_ps2_title_mapping fuel w = (b, out, Some (Ok m)) ->
  exists st,
    outcome b = Some (Ok st) /\ mapping st = m /\ seen_ids st = dom m /\
    out = [Scanning; Found (size (seen_ids st))].
Proof.
  unfold build_ps2_title_mapping.
  destruct (outcome (fetch_loop fuel w [] (JStr START_URL) build_init))
    as [[e|st]|] eqn:Hloop; try discriminate.
  intros [= <- <- <-]. exists st.
  assert (Hinv : seen_ids st = dom (mapping st)).
  { refine (fetch_loop_invariant (fun s => seen_ids s = dom (mapping s))
              _ fuel w [] (JStr START_URL) build_init st _ Hloop).
    - intros s entry s' Hs Hstep. exact (proj1 (process_entry_seen_keys _ _ _ Hs Hstep)).
    - cbn. rewrite dom_empty_L. reflexivity. }
  split; [exact Hloop|]. split; [reflexivity|]. split; [exact Hinv|].
  rewrite Hinv, size_dom. reflexivity.
Qed.

(** X12.  The loop over the pages never drops or replaces a title: from a
    state whose seen serials are its keys, every pair of the mapping is
    still there, with the same title, in the state the loop ends with. *)
Theorem recorded_titles_are_kept (fuel : nat) (w : W) (reqs : list string) (url : json)
    (st st' : build_state) :
  seen_ids st = dom (mapping st) ->
  outcome (fetch_loop fuel w reqs url st) = Some (Ok st') ->
  mapping st ⊆ mapping st'.
Proof.
  intros Hinv Hloop.
  refine (proj2 (fetch_loop_invariant
    (fun s => seen_ids s = dom (mapping s) /\ mapping st ⊆ mapping s)
    _ fuel w reqs url st st' (conj Hinv (reflexivity _)) Hloop)).
  intros s entry s' [Hs Hsub] Hstep.
  destruct (process_entry_seen_keys _ _ _ Hs Hstep) as [Hs' Hsub'].
  split; [exact Hs'|]. etrans; eassumption.
Qed.

End BuilderState.

Lemma seen_ids_are_keys_witness :
  let site := {| site_pages :=
    [(START_URL, page [catalog_entry "PlayStation 2" "game" "SCUS" "12345" "A";
                       catalog_entry "PlayStation 2" "game" "SCUS" "12345" "B";
                       catalog_entry "PlayStation" "game" "SLUS" "00001" "C"] JNull)] |} in
  exists st,
    outcome (fetch_loop 1 site [] (JStr START_URL) build_init) = Some (Ok st) /\
    seen_ids st = dom (mapping st) /\ size (seen_ids st) = 1.
Proof.
  intros site.
  destruct (seen_ids_are_keys (W := static_site) 1 site
              (fetch_loop 1 site [] (JStr START_URL) build_init)
              [Scanning; Found 1] {["SCUS-12345" := "A"]})
    as (st & Hout & Hm & Hseen & Hprint).
  - vm_compute. reflexivity.
  - exists st. split; [exact Hout|]. split; [rewrite Hm; exact Hseen|].
    injection Hprint as Hn. symmetry. exact Hn.
Defined.

Lemma recorded_titles_are_kept_witness :
  let st := {| mapping := {["SCUS-12345" := "First"]}; seen_ids := {["SCUS-12345"]} |} in
  mapping st ⊆ <["SLUS-00001" := "New"]> (mapping st).
Proof.
  intros st.
  refine (recorded_titles_are_kept (W := static_site) 1
    {| site_pages :=
         [(START_URL, page [catalog_entry "PlayStation 2" "game" "SCUS" "12345" "Other";
                            catalog_entry "PlayStation 2" "game" "SLUS" "00001" "New"] JNull)] |}
    [] (JStr START_URL) st
    {| mapping := <["SLUS-00001" := "New"]> (mapping st);
       seen_ids := {["SLUS-00001"]} ∪ seen_ids st |} _ _).
  - cbn. rewrite dom_singleton_L. reflexivity.
  - vm_compute. reflexivity.
Defined.

(** ** Where the recorded pairs come from *)

Lemma last_append (a t : string) : t <> "" -> PyStr.last (a ++ t) = PyStr.last t.
Proof.
  intros Ht. induction a as [|x a IH]; [reflexivity|].
  rewrite append_cons. cbn [PyStr.last].
  destruct (a ++ t) eqn:Hat; [|exact IH].
  destruct a; [rewrite append_nil_l in Hat; congruence|discriminate Hat].
Qed.

Lemma process_page_inv (st st' : build_state) (data next : json) :
  process_page st data = Ok (st', next) ->
  exists results entries,
    Py.get_default data "results" (JArr []) = Ok results /\
    Py.iter results = Ok entries /\
    process_entries st entries = Ok st' /\
    Py.get data "next" = Ok next.
Proof.
  unfold process_page.
  destruct (Py.get_default data "results" (JArr [])) as [|results] eqn:Hres; cbn [rbind];
    [discriminate|].
  destruct (Py.iter results) as [|entries] eqn:Hit; cbn [rbind]; [discriminate|].
  destruct (process_entries st entries) as [|st1] eqn:Hst; cbn [rbind]; [discriminate|].
  destruct (Py.get data "next") as [|nxt] eqn:Hnext; cbn [rbind]; [discriminate|].
  intros [= <- <-]. exists results, entries. auto.
Qed.

Lemma process_entries_origin (entries : list json) (st st' : build_state)
    (serial title : string) :
  process_entries st entries = Ok st' ->
  mapping st' !! serial = Some title ->
  mapping st !! serial = Some title \/
  exists entry, In entry entries /\ entry_serial entry = Ok (Some serial) /\
                pick_title entry = Ok title.
Proof.
  revert st. induction entries as [|entry rest IH]; intros st; cbn [process_entries].
  - intros [= <-]. auto.
  - destruct (process_entry st entry) as [|st1] eqn:Hstep; cbn [rbind]; [discriminate|].
    intros Hrest Hlook.
    destruct (IH _ Hrest Hlook) as [Hold | (e & Hin & He)];
      [|right; exists e; split; [right; exact Hin|exact He]].
    destruct (process_entry_cases _ _ _ Hstep) as [-> | (k & t & Hk & _ & Ht & _ & ->)];
      [auto|].
    cbn in Hold. apply lookup_insert_Some in Hold as [[<- <-] | [_ Hold]]; [|auto].
    right. exists entry. split; [left; reflexivity|auto].
Qed.

Section Origin.
Context {W : Type} `{Network W}.

(** X13.  A loop over the pages that ends without an exception went
    through a chain of pages: there are pages, each fetched at the URL the
    page before gave as [next] and processed without an exception, that
    lead from where the loop started to the state it returns, the last
    [next] being false; and the URLs requested are those of these pages. *)
Theorem fetch_loop_went_through_pages (fuel : nat) (w : W) (reqs : list string) (url : json)
    (st st' : build_state) :
  outcome (fetch_loop fuel w reqs url st) = Some (Ok st') ->
  exists visited url',
    reaches w url st visited (world (fetch_loop fuel w reqs url st)) url' st' /\
    Py.truthy url' = false /\
    requests (fetch_loop fuel w reqs url st) = (reqs ++ map fst visited)%list.
Proof.
  revert w reqs url st. induction fuel as [|fuel IH]; intros w reqs url st; cbn [fetch_loop];
    destruct (Py.truthy url) eqn:Hu; cbn [negb outcome world requests]; try discriminate;
    try (intros [= <-]; exists [], url; rewrite app_nil_r;
         split; [apply reaches_here|]; split; [exact Hu|reflexivity]).
  destruct url; cbn [outcome]; try discriminate.
  destruct (fetch_json w s) as [w1 [e|data]] eqn:Hfetch; cbn [outcome]; [discriminate|].
  destruct (process_page st data) as [e|[st1 next]] eqn:Hpage; cbn [outcome]; [discriminate|].
  intros Hloop. destruct (IH _ _ _ _ Hloop) as (visited & url' & Hreach & Hfalse & Hreq).
  exists ((s, data) :: visited), url'. split; [|split; [exact Hfalse|]].
  - eapply reaches_step; [|exact Hfetch|exact Hpage|exact Hreach].
    intros ->. discriminate Hu.
  - rewrite Hreq, <- app_assoc. reflexivity.
Qed.

(** X14.  Every pair in the state reached through a chain of pages was
    there at the start or comes from an entry of one of these pages: an
    entry that passes the tests, resolves to this serial and has this
    title.  The builder makes up no pair. *)
Theorem recorded_pairs_come_from_pages (w w' : W) (url url' : json) (st st' : build_state)
    (visited : list (string * json)) (serial title : string) :
  reaches w url st visited w' url' st' ->
  mapping st' !! serial = Some title ->
  mapping st !! serial = Some title \/
  exists u data entry,
    In (u, data) visited /\ page_entry data entry /\
    entry_serial entry = Ok (Some serial) /\ pick_title entry = Ok title.
Proof.
  induction 1 as [w url st | w w1 w' u data next url' st st1 st' visited Hu Hfetch Hpage _ IH];
    [auto|].
  intros Hlook.
  destruct (IH Hlook) as [Hold | (u2 & d2 & e & Hin & He)];
    [|right; exists u2, d2, e; split; [right; exact Hin|exact He]].
  apply process_page_inv in Hpage as (results & entries & Hres & Hit & Hent & _).
  destruct (process_entries_origin _ _ _ _ _ Hent Hold) as [Hst | (e & Hin & He)]; [auto|].
  right. exists u, data, e. split; [left; reflexivity|].
  split; [exists results, entries; auto|exact He].
Qed.

End Origin.

Lemma fetch_loop_went_through_pages_witness :
  let p1 := page [catalog_entry "PlayStation 2" "game" "SCUS" "12345" "First"]
                 (JStr "https://api.serialstation.com/titles/?page=2") in
  let p2 := page [catalog_entry "PlayStation 2" "game" "SLUS" "00001" "Second"] (JStr "") in
  let site := {| site_pages :=
                   [(START_URL, p1);
                    ("https://api.serialstation.com/titles/?page=2", p2)] |} in
  let st' := {| mapping := <["SLUS-00001" := "Second"]> {["SCUS-12345" := "First"]};
                seen_ids := {["SLUS-00001"]} ∪ {["SCUS-12345"]} |} in
  exists visited url',
    reaches site (JStr START_URL) build_init visited
      (world (fetch_loop 7 site [] (JStr START_URL) build_init)) url' st' /\
    Py.truthy url' = false /\
    requests (fetch_loop 7 site [] (JStr START_URL) build_init) = ([] ++ map fst visited)%list.
Proof.
  intros p1 p2 site st'.
  refine (fetch_loop_went_through_pages 7 site [] (JStr START_URL) build_init st' _).
  vm_compute. reflexivity.
Defined.

Lemma recorded_pairs_come_from_pages_witness :
  let p1 := page [catalog_entry "Xbox" "game" "SCUS" "12345" "Wrong";
                  catalog_entry "PlayStation 2" "game" "SCUS" "12345" "First"] JNull in
  let site := {| site_pages := [(START_URL, p1)] |} in
  exists u data entry,
    In (u, data) [(START_URL, p1)] /\ page_entry data entry /\
    entry_serial entry = Ok (Some "SCUS-12345") /\ pick_title entry = Ok "First".
Proof.
  intros p1 site.
  assert (Hreach : exists st',
            reaches site (JStr START_URL) build_init [(START_URL, p1)] site JNull st' /\
            mapping st' !! "SCUS-12345" = Some "First").
  { eexists. split.
    - eapply reaches_step; [discriminate | reflexivity | vm_compute; reflexivity |].
      apply reaches_here.
    - vm_compute. reflexivity. }
  destruct Hreach as (st' & Hreach & Hlook).
  destruct (recorded_pairs_come_from_pages _ _ _ _ _ _ _ "SCUS-12345" "First" Hreach Hlook)
    as [Hinit | Hfound]; [|exact Hfound].
  cbn in Hinit. rewrite lookup_empty in Hinit. discriminate Hinit.
Defined.

(** ** Pages and entries of the wrong shape *)

Section BadPages.
Context {W : Type} `{Network W}.

(** X16.  A page that cannot be processed ends the run as a failed fetch
    does: when the loop has come, after the pages [visited], to a URL whose
    page makes the processing raise [e], [main] ends with [e] raised, the
    directory as it was and no line of the Renamer printed. *)
Theorem page_failure_aborts_run {FS : Type} `{FileSystem FS}
    (w w1 w2 : W) (u : string) (st1 : build_state) (visited : list (string * json))
    (data : json) (e : exn) (fuel : nat) (fs : FS) :
  reaches w (JStr START_URL) build_init visited w1 (JStr u) st1 ->
  u <> "" ->
  fetch_json w1 u = (w2, Ok data) ->
  process_page st1 data = Raise e ->
  length visited < fuel ->
  main fuel w fs =
    {| net := {| world := w2; requests := map fst visited ++ [u]; outcome := Some (Raise e) |};
       files := {| disk := fs; printed := [Scanning]; raised := Some e |};
       finished := true |}.
Proof.
  intros Hreach Hu Hfetch Hpage Hfuel.
  assert (Hloop : fetch_loop fuel w [] (JStr START_URL) build_init =
            {| world := w2; requests := map fst visited ++ [u]; outcome := Some (Raise e) |}).
  { replace fuel with (length visited + S (fuel - length visited - 1)) by lia.
    rewrite (fetch_loop_reaches _ _ _ _ _ _ _ Hreach).
    cbn [fetch_loop]. rewrite (truthy_str u Hu). cbn [negb].
    unfold Ok, Raise in Hfetch, Hpage |- *. rewrite Hfetch, Hpage. reflexivity. }
  rewrite (main_build_raises fuel w fs e); rewrite Hloop; reflexivity.
Qed.

End BadPages.

Lemma page_failure_aborts_run_witness :
  let p1 := page [catalog_entry "PlayStation 2" "game" "SCUS" "12345" "First"]
                 (JStr "https://api.serialstation.com/titles/?page=2") in
  let p2 := JObj [("results", JNull); ("next", JNull)] in
  let site := {| site_pages :=
                   [(START_URL, p1);
                    ("https://api.serialstation.com/titles/?page=2", p2)] |} in
  let d := {| folder_entries := [("SCUS-12345.iso", true)] |} in
  files (main 3 site d) = {| disk := d; printed := [Scanning]; raised := Some TypeError |}.
Proof.
  intros p1 p2 site d.
  assert (Hreach : exists st1,
            reaches site (JStr START_URL) build_init [(START_URL, p1)] site
              (JStr "https://api.serialstation.com/titles/?page=2") st1).
  { eexists. eapply reaches_step; [discriminate | reflexivity | vm_compute; reflexivity |].
    apply reaches_here. }
  destruct Hreach as (st1 & Hreach).
  rewrite (page_failure_aborts_run site site site
             "https://api.serialstation.com/titles/?page=2" st1 _ p2 TypeError 3 d Hreach
             ltac:(discriminate) eq_refl eq_refl ltac:(cbn; lia)).
  reflexivity.
Defined.

(** X17.  What a page's [results] may be.  A page without the key, or with
    an empty string for it, is an empty page: the state stays and the loop
    goes on with the page's [next].  A page whose [results] is null raises
    [TypeError], one whose [results] is a non-empty string raises
    [AttributeError], and so does a page that is no object at all. *)
Theorem page_results_edge_cases (st : build_state) (items : list (string * json)) :
  (Py.assoc "results" items = None ->
     process_page st (JObj items) = Ok (st, next_of items)) /\
  (Py.assoc "results" items = Some (JStr "") ->
     process_page st (JObj items) = Ok (st, next_of items)) /\
  (Py.assoc "results" items = Some JNull ->
     process_page st (JObj items) = Raise TypeError) /\
  (forall c s, Py.assoc "results" items = Some (JStr (String c s)) ->
     process_page st (JObj items) = Raise AttributeError) /\
  (forall data, (forall kv, data <> JObj kv) -> process_page st data = Raise AttributeError).
Proof.
  unfold process_page, next_of.
  split; [|split; [|split; [|split]]].
  - intros Hres. cbn. rewrite Hres. reflexivity.
  - intros Hres. cbn. rewrite Hres. reflexivity.
  - intros Hres. cbn. rewrite Hres. reflexivity.
  - intros c s Hres. cbn. rewrite Hres. reflexivity.
  - intros data Hdata. destruct data; try reflexivity. exfalso. eapply Hdata. reflexivity.
Qed.

Lemma page_results_edge_cases_witness :
  process_page build_init (JObj [("next", JStr "https://a/b")])
    = Ok (build_init, JStr "https://a/b") /\
  process_page build_init (JObj [("next", JBool false); ("results", JNull)])
    = Raise TypeError.
Proof.
  split.
  - exact (proj1 (page_results_edge_cases build_init [("next", JStr "https://a/b")]) eq_refl).
  - exact (proj1 (proj2 (proj2
      (page_results_edge_cases build_init [("next", JBool false); ("results", JNull)])))
      eq_refl).
Defined.

(** X18.  An entry whose [name] is missing or null has the empty title,
    and the builder never records it: if its round ends without an
    exception, the state is as before. *)
Theorem unnamed_entry_not_recorded (st st' : build_state) (items : list (string * json)) :
  Py.assoc "name" items = None \/ Py.assoc "name" items = Some JNull ->
  pick_title (JObj items) = Ok "" /\
  (process_entry st (JObj items) = Ok st' -> st' = st).
Proof.
  intros Hname.
  assert (Hpick : pick_title (JObj items) = Ok "").
  { unfold pick_title. cbn. destruct Hname as [-> | ->]; reflexivity. }
  split; [exact Hpick|].
  intros Hstep.
  destruct (process_entry_cases _ _ _ Hstep) as [-> | (k & t & _ & _ & Ht & Hne & _)];
    [reflexivity|].
  rewrite Hpick in Ht. injection Ht as <-. congruence.
Qed.

Lemma unnamed_entry_not_recorded_witness :
  let entry := JObj [("systems", JArr [JStr "PlayStation 2"]); ("content_type", JStr "game");
                     ("title_id_type", JStr "SCUS"); ("title_id_number", JStr "12345");
                     ("name", JNull)] in
  pick_title entry = Ok "" /\ process_entry build_init entry = Ok build_init.
Proof.
  intros entry.
  destruct (unnamed_entry_not_recorded build_init build_init
              [("systems", JArr [JStr "PlayStation 2"]); ("content_type", JStr "game");
               ("title_id_type", JStr "SCUS"); ("title_id_number", JStr "12345");
               ("name", JNull)] (or_intror eq_refl)) as [Hpick _].
  split; [exact Hpick|reflexivity].
Defined.

(** ** The candidate code is the stem cut at its end *)

Lemma star_greedy_result (p : ascii -> bool) (k : Re.cont) (b : bool) (s r : string) :
  Re.star_greedy p k b s = Some r ->
  exists b' pre s', s = pre ++ s' /\ k b' s' = Some r.
Proof.
  revert b. induction s as [|c s IH]; intros b; cbn [Re.star_greedy].
  - intros Hk. exists b, "", "". auto.
  - destruct (p c).
    + destruct (Re.star_greedy p k false s) as [r'|] eqn:Hrec.
      * intros [= <-]. destruct (IH _ Hrec) as (b' & pre & s' & -> & Hk).
        exists b', (String c pre), s'. auto.
      * intros Hk. exists b, "", (String c s). auto.
    + intros Hk. exists b, "", (String c s). auto.
Qed.

(** A match of [paren_suffix_re] is not empty and runs to the end of the
    string, or to the newline that ends it. *)
Lemma paren_match_rest (b : bool) (s r : string) :
  Re.match_here paren_suffix_re b s = Some r ->
  exists m, s = m ++ r /\ m <> "" /\ Re.at_end r = true.
Proof.
  unfold Re.match_here, paren_suffix_re. cbn [Re.run]. intros Hm.
  apply star_greedy_result in Hm as (b1 & pre1 & s1 & -> & Hm).
  destruct s1 as [|c1 s2]; [discriminate Hm|].
  destruct (Re.lit "(" c1); [|discriminate Hm].
  apply star_greedy_result in Hm as (b2 & pre2 & s3 & -> & Hm).
  destruct s3 as [|c2 s4]; [discriminate Hm|].
  destruct (Re.lit ")" c2); [|discriminate Hm].
  destruct (Re.at_end s4) eqn:Hend; [|discriminate Hm].
  injection Hm as <-.
  exists (pre1 ++ String c1 (pre2 ++ String c2 "")). split; [|split; [|exact Hend]].
  - rewrite !append_assoc, append_cons, append_assoc. reflexivity.
  - destruct pre1; discriminate.
Qed.

Lemma paren_sub_cut (s : string) (b : bool) :
  exists kept dropped tail,
    s = kept ++ dropped ++ tail /\
    Re.sub_go paren_suffix_re 0 b s = kept ++ tail /\
    Re.at_end tail = true.
Proof.
  revert b. induction s as [|c s IH]; intros b.
  - exists "", "", "". auto.
  - cbn [Re.sub_go].
    destruct (Re.match_here paren_suffix_re b (String c s)) as [rest|] eqn:Hm.
    + destruct (paren_match_rest _ _ _ Hm) as (m & Hs & Hne & Hend).
      destruct m as [|x m]; [congruence|].
      rewrite append_cons in Hs. injection Hs as <- ->.
      replace (String.length (String c (m ++ rest)) - String.length rest)
        with (S (String.length m))
        by (cbn [String.length]; rewrite length_append; lia).
      rewrite sub_go_skip, (paren_sub_tail rest Hend).
      exists "", (String c m), rest. auto.
    + destruct (IH false) as (kept & dropped & tail & -> & -> & Hend).
      exists (String c kept), dropped, tail. auto.
Qed.

(** X19.  The candidate code is the stem with one piece cut out at its
    end: what stands before the piece is kept as it is, and after the
    piece there is nothing, or the newline that ends the stem.  So the
    candidate is never longer than the file name. *)
Theorem candidate_code_cuts_the_end (name : string) :
  (exists kept dropped tail,
     Path.stem name = kept ++ dropped ++ tail /\
     candidate_code name = kept ++ tail /\
     (tail = "" \/ tail = nl)) /\
  String.length (candidate_code name) <= String.length name.
Proof.
  destruct (paren_sub_cut (Path.stem name) true) as (kept & dropped & tail & Hstem & Hcode & Hend).
  fold (Re.re_sub_delete paren_suffix_re (Path.stem name)) in Hcode.
  fold (candidate_code name) in Hcode.
  split.
  - exists kept, dropped, tail. split; [exact Hstem|]. split; [exact Hcode|].
    apply at_end_cases, Hend.
  - rewrite Hcode, <- (stem_suffix name), Hstem, !length_append. lia.
Qed.

Lemma sanitize_filename_fixed_points_witness :
  sanitize_filename "Shadow of the Colossus" = "Shadow of the Colossus".
Proof.
  refine (proj2 (sanitize_filename_fixed_points "Shadow of the Colossus") (conj eq_refl _)).
  split; intros c Hc; vm_compute in Hc; injection Hc as <-; reflexivity.
Defined.

(** ** The Renamer: which files it looks at, in full *)

Lemma star_greedy_consumed (p : ascii -> bool) (k : Re.cont) (b : bool) (s r : string) :
  Re.star_greedy p k b s = Some r ->
  exists b' pre s', s = pre ++ s' /\ PyStr.all p pre = true /\ k b' s' = Some r.
Proof.
  revert b. induction s as [|c s IH]; intros b; cbn [Re.star_greedy].
  - intros Hk. exists b, "", "". auto.
  - destruct (p c) eqn:Hc.
    + destruct (Re.star_greedy p k false s) as [r'|] eqn:Hrec.
      * intros [= <-]. destruct (IH _ Hrec) as (b' & pre & s' & -> & Hpre & Hk).
        exists b', (String c pre), s'. cbn [PyStr.all]. rewrite Hc, Hpre. auto.
      * intros Hk. exists b, "", (String c s). auto.
    + intros Hk. exists b, "", (String c s). auto.
Qed.

Lemma at_end_tail (r : string) : Re.at_end r = true <-> r = "" \/ r = nl.
Proof.
  split; [apply at_end_cases|]. intros [-> | ->]; reflexivity.
Qed.

(** What a match of [paren_suffix_re] at the head of [s] is: a region, with
    the end of [s] after it. *)
Lemma paren_match_region (b : bool) (s r : string) :
  Re.match_here paren_suffix_re b s = Some r <->
  exists m, s = m ++ r /\ paren_region m /\ Re.at_end r = true.
Proof.
  split.
  - unfold Re.match_here, paren_suffix_re. cbn [Re.run]. intros Hm.
    apply star_greedy_consumed in Hm as (b1 & ws & s1 & -> & Hws & Hm).
    destruct s1 as [|c1 s2]; [discriminate Hm|].
    unfold Re.lit in Hm at 1. destruct (ascii_dec c1 "(") as [-> | _]; [|discriminate Hm].
    apply star_greedy_consumed in Hm as (b2 & inner & s3 & -> & Hin & Hm).
    destruct s3 as [|c2 s4]; [discriminate Hm|].
    unfold Re.lit in Hm at 1. destruct (ascii_dec c2 ")") as [-> | _]; [|discriminate Hm].
    destruct (Re.at_end s4) eqn:Hend; [|discriminate Hm].
    injection Hm as <-.
    exists (ws ++ "(" ++ inner ++ ")"). split; [|split; [|exact Hend]].
    + rewrite !append_assoc. reflexivity.
    + exists ws, inner. auto.
  - intros (m & -> & (ws & inner & -> & Hws & Hin) & Hend).
    rewrite !append_assoc. apply paren_match_here; assumption.
Qed.

Lemma paren_region_not_empty (m : string) : paren_region m -> m <> "".
Proof. intros (ws & inner & -> & _). destruct ws; discriminate. Qed.

(** What the deletion of the matches of [paren_suffix_re] does to a
    string: it cuts out the region at its end that starts first, or, when
    the string ends with no region, leaves it alone. *)
Lemma paren_sub_cases (s : string) (b : bool) :
  (exists kept m tail,
     region_at_end s kept m tail /\
     Re.sub_go paren_suffix_re 0 b s = kept ++ tail /\
     forall kept' m' tail', region_at_end s kept' m' tail' ->
                            String.length kept <= String.length kept') \/
  (Re.sub_go paren_suffix_re 0 b s = s /\
   forall kept m tail, ~ region_at_end s kept m tail).
Proof.
  revert b. induction s as [|c s IH]; intros b.
  - right. split; [reflexivity|].
    intros kept m tail (Hs & Hm & _). apply paren_region_not_empty in Hm.
    destruct kept; [|discriminate Hs]. destruct m; [congruence|discriminate Hs].
  - cbn [Re.sub_go].
    destruct (Re.match_here paren_suffix_re b (String c s)) as [rest|] eqn:Hmatch.
    + left. apply paren_match_region in Hmatch as (m & Hs & Hm & Hend).
      pose proof (paren_region_not_empty m Hm) as Hne.
      destruct m as [|x m']; [congruence|].
      rewrite append_cons in Hs. injection Hs as <- ->.
      replace (String.length (String c (m' ++ rest)) - String.length rest)
        with (S (String.length m'))
        by (cbn [String.length]; rewrite length_append; lia).
      rewrite sub_go_skip, (paren_sub_tail rest Hend).
      exists "", (String c m'), rest. split; [|split; [reflexivity|intros; cbn; lia]].
      split; [reflexivity|]. split; [exact Hm|]. apply at_end_tail, Hend.
    + assert (Hhead : forall m tail, ~ region_at_end (String c s) "" m tail).
      { intros m tail (Hs & Hm & Htail). rewrite append_nil_l in Hs.
        assert (Hsome : Re.match_here paren_suffix_re b (String c s) = Some tail).
        { apply paren_match_region. exists m. split; [exact Hs|].
          split; [exact Hm|]. apply at_end_tail, Htail. }
        congruence. }
      destruct (IH false) as [(kept & m & tail & (Hs & Hm & Htail) & Hsub & Hleft) | [Hsub Hnone]].
      * left. exists (String c kept), m, tail. split; [|split].
        -- split; [rewrite append_cons, <- Hs; reflexivity|auto].
        -- rewrite Hsub. reflexivity.
        -- intros [|x kept'] m' tail' Hr; [destruct (Hhead _ _ Hr)|].
           destruct Hr as (Hs' & Hm' & Htail').
           rewrite append_cons in Hs'. injection Hs' as _ Hs'.
           specialize (Hleft kept' m' tail' (conj Hs' (conj Hm' Htail'))).
           cbn [String.length]. lia.
      * right. split; [rewrite Hsub; reflexivity|].
        intros [|x kept] m tail Hr; [destruct (Hhead _ _ Hr)|].
        destruct Hr as (Hs' & Hm' & Htail').
        rewrite append_cons in Hs'. injection Hs' as _ Hs'.
        exact (Hnone kept m tail (conj Hs' (conj Hm' Htail'))).
Qed.

Lemma stem_not_empty (name : string) : Path.suffix name <> "" -> Path.stem name <> "".
Proof.
  unfold Path.suffix, Path.stem, Path.suffix_index.
  destruct (PyStr.rfind "." name) as [i|]; [|congruence].
  destruct ((0 <? i) && (i <? String.length name - 1))%nat eqn:Hb; [|congruence].
  intros _. apply andb_prop in Hb as [Hpos Hlt].
  apply Nat.ltb_lt in Hpos, Hlt.
  destruct i as [|i]; [lia|]. destruct name as [|c name]; [cbn in Hlt; lia|].
  discriminate.
Qed.

(** C5.  For every regular file: the name is split into stem and extension,
    the extension being the last dot and what follows it when the dot is
    neither first nor last, and empty otherwise.  The candidate code is the
    stem without the region at its end, white space then an opening
    parenthesis up to a closing one with no newline in between, that starts
    first, a newline that ends the stem staying; it is the stem itself when
    the stem ends with no such region.  The file is processed exactly when
    the candidate matches [serial_re]; otherwise the round changes neither
    the directory nor the output.  [SCUS-12345 (USA).iso] gives the
    candidate [SCUS-12345]; [readme.txt] gives one that does not match. *)
Theorem rename_one_serial_gate {FS : Type} `{FileSystem FS} :
  (forall (mapping : gmap string string) (fs : FS) (out : list event) (name : string),
     is_file fs name = true ->
     Path.stem name ++ Path.suffix name = name /\
     (Path.suffix name <> "" ->
        is_extension (Path.suffix name) /\ Path.stem name <> "") /\
     (forall a ext, a <> "" -> is_extension ext -> name = a ++ ext ->
        Path.stem name = a /\ Path.suffix name = ext) /\
     ((exists kept m tail,
         region_at_end (Path.stem name) kept m tail /\
         candidate_code name = kept ++ tail /\
         forall kept' m' tail', region_at_end (Path.stem name) kept' m' tail' ->
                                String.length kept <= String.length kept') \/
      (candidate_code name = Path.stem name /\
       forall kept m tail, ~ region_at_end (Path.stem name) kept m tail)) /\
     (Re.re_match serial_re (candidate_code name) = false ->
        rename_one mapping fs out name = untouched fs out) /\
     (Re.re_match serial_re (candidate_code name) = true ->
        (exists ev, printed (rename_one mapping fs out name) = (out ++ [ev])%list) \/
        raised (rename_one mapping fs out name) = Some ValueError)) /\
  candidate_code "SCUS-12345 (USA).iso" = "SCUS-12345" /\
  Re.re_match serial_re (candidate_code "SCUS-12345 (USA).iso") = true /\
  Re.re_match serial_re (candidate_code "readme.txt") = false.
Proof.
  split; [|repeat split; reflexivity].
  intros mapping fs out name Hfile.
  split; [apply stem_suffix|].
  split; [intros Hext; split; [apply suffix_is_extension|apply stem_not_empty]; exact Hext|].
  split; [intros a ext Ha Hext ->; apply split_joined; assumption|].
  split; [apply paren_sub_cases|].
  unfold rename_one. rewrite Hfile. cbn [negb].
  split; intros Hm; rewrite Hm; cbn [negb]; [reflexivity|].
  destruct (mapping !! candidate_code name) as [raw_title|]; [|left; eexists; reflexivity].
  unfold Path.with_name.
  destruct (PyStr.is_empty _ || String.eqb _ "."); cbn; [right; reflexivity|].
  left. destruct (rename fs name _); eexists; reflexivity.
Qed.

Lemma rename_one_serial_gate_witness :
  let d := {| folder_entries :=
                [("SCUS-12345 (USA) [!].iso", true); ("readme.txt", true)] |} in
  (Path.stem "SCUS-12345 (USA) [!].iso" = "SCUS-12345 (USA) [!]" /\
   Path.suffix "SCUS-12345 (USA) [!].iso" = ".iso") /\
  rename_one (∅ : gmap string string) d [] "SCUS-12345 (USA) [!].iso" = untouched d [] /\
  rename_one (∅ : gmap string string) d [] "readme.txt" = untouched d [].
Proof.
  intros d. split; [|split].
  - refine (proj1 (proj2 (proj2
      (proj1 (@rename_one_serial_gate folder _) ∅ d [] "SCUS-12345 (USA) [!].iso" _)))
      "SCUS-12345 (USA) [!]" ".iso" _ _ _); try reflexivity; [discriminate|].
    exists "iso". split; [reflexivity|]. split; [discriminate|reflexivity].
  - refine (proj1 (proj2 (proj2 (proj2 (proj2
      (proj1 (@rename_one_serial_gate folder _) ∅ d [] "SCUS-12345 (USA) [!].iso" _))))) _);
      reflexivity.
  - refine (proj1 (proj2 (proj2 (proj2 (proj2
      (proj1 (@rename_one_serial_gate folder _) ∅ d [] "readme.txt" _))))) _); reflexivity.
Defined.

(** ** The Mapping Builder: what it records, entry by entry *)

Lemma py_lower_inv (v : json) (s : string) :
  Py.lower v = Ok s -> exists x, v = JStr x /\ s = PyStr.lower x.
Proof. destruct v; cbn; try discriminate. intros [= <-]. eauto. Qed.

(** The serial of an entry, read on its fields. *)
Lemma entry_serial_fields (entry : json) (serial : string) :
  entry_serial entry = Ok (Some serial) <->
  exists t_type t_num, passes_filters entry t_type t_num /\ serial = serial_of t_type t_num.
Proof.
  unfold passes_filters, field_text, as_text, serial_of. split.
  - unfold entry_serial, Ok.
    destruct (Py.get entry "systems") as [|sys] eqn:Hsys; cbn [rbind]; [discriminate|].
    destruct (Py.str_in "PlayStation 2" (Py.or_else sys (JArr []))) as [|[]] eqn:Hin;
      cbn [rbind negb]; [discriminate| |discriminate].
    destruct (Py.get entry "content_type") as [|ct] eqn:Hct; cbn [rbind]; [discriminate|].
    destruct (Py.lower (Py.or_else ct (JStr ""))) as [|content_type] eqn:Hlow; cbn [rbind];
      [discriminate|].
    destruct (String.eqb_spec content_type "game") as [-> | _]; cbn [negb]; [|discriminate].
    destruct (Py.get entry "title_id_type") as [|ty] eqn:Hty; cbn [rbind]; [discriminate|].
    destruct (Py.strip (Py.or_else ty (JStr ""))) as [|t_type] eqn:Hst; cbn [rbind];
      [discriminate|].
    destruct (Py.get entry "title_id_number") as [|nu] eqn:Hnu; cbn [rbind]; [discriminate|].
    destruct (Py.strip (Py.or_else nu (JStr ""))) as [|t_num] eqn:Hsn; cbn [rbind];
      [discriminate|].
    destruct (PyStr.is_empty t_type) eqn:Et; cbn [negb andb]; [discriminate|].
    destruct (PyStr.is_empty t_num) eqn:En; cbn [negb]; [discriminate|].
    intros [= <-].
    fold (@Ok string) in Hlow, Hst, Hsn.
    apply py_lower_inv in Hlow as (c & Hc & Hgame).
    apply py_strip_inv in Hst as (x & Hx & ->). apply py_strip_inv in Hsn as (y & Hy & ->).
    apply is_empty_false in Et, En.
    exists x, y. split; [|reflexivity].
    split; [exists sys; auto|]. split; [exists c; split; [exists ct; auto|congruence]|].
    split; [exists ty; auto|]. split; [exists nu; auto|]. auto.
  - intros (x & y & ((sys & Hsys & Hin) & (c & (ct & Hct & Hc) & Hgame) &
                     (ty & Hty & Hx) & (nu & Hnu & Hy) & Hxe & Hye) & ->).
    unfold entry_serial. rewrite Hsys. cbn [rbind Ok]. rewrite Hin. cbn [rbind Ok negb].
    rewrite Hct. cbn [rbind Ok]. rewrite Hc. cbn [Py.lower rbind Ok]. rewrite Hgame.
    cbn [String.eqb Ascii.eqb Bool.eqb negb].
    rewrite Hty. cbn [rbind Ok]. rewrite Hx. cbn [Py.strip rbind Ok].
    rewrite Hnu. cbn [rbind Ok]. rewrite Hy. cbn [Py.strip rbind Ok].
    apply is_empty_false in Hxe, Hye. rewrite Hxe, Hye. reflexivity.
Qed.

Lemma process_entries_app (st : build_state) (a b : list json) :
  process_entries st (a ++ b) =
    let* st' := process_entries st a in process_entries st' b.
Proof.
  revert st. induction a as [|e a IH]; intros st; [reflexivity|].
  cbn [app process_entries]. destruct (process_entry st e); cbn [rbind]; [reflexivity|apply IH].
Qed.

Lemma process_entries_app_inv (st st' : build_state) (a b : list json) :
  process_entries st (a ++ b) = Ok st' ->
  exists s, process_entries st a = Ok s /\ process_entries s b = Ok st'.
Proof.
  rewrite process_entries_app.
  destruct (process_entries st a) as [|s]; cbn [rbind]; [discriminate|]. eauto.
Qed.

(** A serial stays unseen through entries none of which is recorded under
    it. *)
Lemma process_entries_unseen (entries : list json) (st st' : build_state) (serial : string) :
  serial ∉ seen_ids st ->
  (forall e t, In e entries -> entry_serial e = Ok (Some serial) ->
               pick_title e = Ok t -> t = "") ->
  process_entries st entries = Ok st' ->
  serial ∉ seen_ids st'.
Proof.
  revert st. induction entries as [|e rest IH]; intros st Hnew Hnone; cbn [process_entries].
  - intros [= <-]. exact Hnew.
  - destruct (process_entry st e) as [|st1] eqn:Hstep; cbn [rbind]; [discriminate|].
    apply IH; [|intros e' t Hin; apply Hnone; right; exact Hin].
    destruct (process_entry_cases _ _ _ Hstep) as [-> | (k & t & Hk & _ & Ht & Hne & ->)];
      [exact Hnew|].
    cbn [seen_ids]. intros Hin. apply elem_of_union in Hin as [Hin | Hin]; [|contradiction].
    apply elem_of_singleton in Hin as ->.
    apply Hne. exact (Hnone e t (or_introl eq_refl) Hk Ht).
Qed.

Lemma process_entry_records (st : build_state) (e : json) (serial title : string) :
  entry_serial e = Ok (Some serial) -> serial ∉ seen_ids st ->
  pick_title e = Ok title -> title <> "" ->
  process_entry st e =
    Ok {| mapping := <[serial := title]> (mapping st); seen_ids := {[serial]} ∪ seen_ids st |}.
Proof.
  intros Hs Hnew Ht Hne. unfold process_entry. rewrite Hs. cbn [rbind Ok].
  destruct (decide (serial ∈ seen_ids st)); [contradiction|].
  rewrite Ht. cbn [rbind Ok]. apply is_empty_false in Hne. rewrite Hne. reflexivity.
Qed.

Lemma process_entry_drops (st : build_state) (e : json) (serial : string) :
  entry_serial e = Ok (Some serial) -> serial ∈ seen_ids st -> process_entry st e = Ok st.
Proof.
  intros Hs Hseen. unfold process_entry. rewrite Hs. cbn [rbind Ok].
  destruct (decide (serial ∈ seen_ids st)); [reflexivity|contradiction].
Qed.

(** A pair found after some entries was there before them, or comes from
    one of them, whose fields give the key and whose title it is. *)
Lemma process_entries_fields (entries : list json) (st st' : build_state)
    (serial title : string) :
  process_entries st entries = Ok st' ->
  mapping st' !! serial = Some title ->
  mapping st !! serial = Some title \/
  exists entry t_type t_num,
    In entry entries /\ passes_filters entry t_type t_num /\
    serial = serial_of t_type t_num /\ pick_title entry = Ok title /\ title <> "".
Proof.
  revert st. induction entries as [|entry rest IH]; intros st; cbn [process_entries].
  - intros [= <-]. auto.
  - destruct (process_entry st entry) as [|st1] eqn:Hstep; cbn [rbind]; [discriminate|].
    intros Hrest Hlook.
    destruct (IH _ Hrest Hlook) as [Hold | (e & x & y & Hin & He)];
      [|right; exists e, x, y; split; [right; exact Hin|exact He]].
    destruct (process_entry_cases _ _ _ Hstep) as [-> | (k & t & Hk & _ & Ht & Hne & ->)];
      [auto|].
    cbn in Hold. apply lookup_insert_Some in Hold as [[<- <-] | [_ Hold]]; [|auto].
    apply entry_serial_fields in Hk as (x & y & Hpass & Hser).
    right. exists entry, x, y. split; [left; reflexivity|auto].
Qed.

Section RecordedInFull.
Context {W : Type} `{Network W}.

Lemma reaches_fields (w w' : W) (url url' : json) (st st' : build_state)
    (visited : list (string * json)) (serial title : string) :
  reaches w url st visited w' url' st' ->
  mapping st' !! serial = Some title ->
  mapping st !! serial = Some title \/
  exists u data entry t_type t_num,
    In (u, data) visited /\ page_entry data entry /\
    passes_filters entry t_type t_num /\ serial = serial_of t_type t_num /\
    pick_title entry = Ok title /\ title <> "".
Proof.
  induction 1 as [w url st | w w1 w' u data next url' st st1 st' visited Hu Hfetch Hpage _ IH];
    [auto|].
  intros Hlook.
  destruct (IH Hlook) as [Hold | (u2 & d2 & e & x & y & Hin & He)];
    [|right; exists u2, d2, e, x, y; split; [right; exact Hin|exact He]].
  apply process_page_inv in Hpage as (results & entries & Hres & Hit & Hent & _).
  destruct (process_entries_fields _ _ _ _ _ Hent Hold) as [Hst | (e & x & y & Hin & He)];
    [auto|].
  right. exists u, data, e, x, y. split; [left; reflexivity|].
  split; [exists results, entries; auto|exact He].
Qed.

Lemma fetch_loop_chain (fuel : nat) (w : W) (reqs : list string) (url : json)
    (st st' : build_state) :
  outcome (fetch_loop fuel w reqs url st) = Some (Ok st') ->
  exists visited url',
    reaches w url st visited (world (fetch_loop fuel w reqs url st)) url' st' /\
    requests (fetch_loop fuel w reqs url st) = (reqs ++ map fst visited)%list.
Proof.
  revert w reqs url st. induction fuel as [|fuel IH]; intros w reqs url st; cbn [fetch_loop];
    destruct (Py.truthy url) eqn:Hu; cbn [negb outcome world requests]; try discriminate;
    try (intros [= <-]; exists [], url; rewrite app_nil_r; split;
         [apply reaches_here|reflexivity]).
  destruct url; cbn [outcome]; try discriminate.
  destruct (fetch_json w s) as [w1 [e|data]] eqn:Hfetch; cbn [outcome]; [discriminate|].
  destruct (process_page st data) as [e|[st1 next]] eqn:Hpage; cbn [outcome]; [discriminate|].
  intros Hloop. destruct (IH _ _ _ _ Hloop) as (visited & url' & Hreach & Hreq).
  exists ((s, data) :: visited), url'. split.
  - eapply reaches_step; [|exact Hfetch|exact Hpage|exact Hreach].
    intros ->. discriminate Hu.
  - rewrite Hreq, <- app_assoc. reflexivity.
Qed.

(** C1, as amended.  Every key of the mapping the builder returns comes
    from an entry of a page it fetched, an entry that passes the three
    tests: the key is that entry's [title_id_type], trimmed, a hyphen, and
    its [title_id_number], trimmed, both non-empty and so with white space
    at neither end; and the title stored is the entry's selected title,
    which is not empty.  (Nothing compares the key with the format
    LLLL-NNNNN.) *)
Theorem recorded_keys_and_titles (fuel : nat) (w : W) (b : builder W) (out : list event)
    (m : gmap string string) :
  build_ps2_title_mapping fuel w = (b, out, Some (Ok m)) ->
  forall serial title, m !! serial = Some title ->
    recorded_shape serial title /\
    exists visited url' st',
      reaches w (JStr START_URL) build_init visited (world b) url' st' /\
      requests b = map fst visited /\ mapping st' = m /\
      exists u data entry t_type t_num,
        In (u, data) visited /\ page_entry data entry /\
        passes_filters entry t_type t_num /\
        serial = PyStr.strip t_type ++ "-" ++ PyStr.strip t_num /\
        pick_title entry = Ok title.
Proof.
  unfold build_ps2_title_mapping.
  destruct (outcome (fetch_loop fuel w [] (JStr START_URL) build_init))
    as [[e|st]|] eqn:Hloop; try discriminate.
  intros [= <- _ <-] serial title Hlook.
  destruct (fetch_loop_chain _ _ _ _ _ _ Hloop) as (visited & url' & Hreach & Hreq).
  destruct (reaches_fields _ _ _ _ _ _ _ serial title Hreach Hlook)
    as [Hinit | (u & data & entry & x & y & Hin & Hpage & Hpass & Hser & Htitle & Hne)].
  { cbn in Hinit. rewrite lookup_empty in Hinit. discriminate Hinit. }
  split.
  - split; [exact Hne|]. exists (PyStr.strip x), (PyStr.strip y).
    destruct Hpass as (_ & _ & _ & _ & Hx & Hy).
    split; [exact Hser|]. split; [exact Hx|]. split; [exact Hy|].
    split; apply strip_trimmed.
  - exists visited, url', st. split; [exact Hreach|]. split; [exact Hreq|].
    split; [reflexivity|]. exists u, data, entry, x, y. auto.
Qed.

Lemma reaches_entries (w w' : W) (url url' : json) (st st' : build_state)
    (visited : list (string * json)) (ess : list (list json)) :
  reaches w url st visited w' url' st' ->
  pages_entries visited ess ->
  process_entries st (concat ess) = Ok st'.
Proof.
  intros Hreach. revert ess.
  induction Hreach
    as [w url st | w w1 w' u data next url' st st1 st' visited Hu Hfetch Hpage _ IH];
    intros ess Hess.
  - inversion Hess; subst. reflexivity.
  - inversion Hess as [|p es visited' ess' (results & Hres & Hit) Hrest]; subst.
    apply process_page_inv in Hpage as (results' & entries & Hres' & Hit' & Hent & _).
    cbn [snd] in Hres. rewrite Hres' in Hres. injection Hres as <-.
    rewrite Hit' in Hit. injection Hit as <-.
    cbn [concat]. rewrite process_entries_app, Hent. cbn [rbind Ok]. apply IH, Hrest.
Qed.

(** C3.  Let the pages the builder goes through hold, in
    page-then-entry order, the entries [before], then [e1], then [middle],
    then [e2], then [after], where [e1] and [e2] pass the three tests and
    resolve to the same serial, [e1] has a non-empty title, and no entry of
    [before] that resolves to this serial has one.  Then the builder
    returns a mapping whose title for the serial is the one selected from
    [e1]; that title is in place once the loop has gone through [e1] and
    [middle]; and the round of [e2] leaves the state as it was: [e2] is
    dropped. *)
Theorem first_occurrence_wins (w w' : W) (url' : json) (st' : build_state)
    (visited : list (string * json)) (ess : list (list json))
    (before middle after : list json) (e1 e2 : json)
    (t1 n1 t2 n2 serial title : string) :
  reaches w (JStr START_URL) build_init visited w' url' st' ->
  Py.truthy url' = false ->
  pages_entries visited ess ->
  concat ess = (before ++ e1 :: middle ++ e2 :: after)%list ->
  passes_filters e1 t1 n1 -> serial_of t1 n1 = serial ->
  passes_filters e2 t2 n2 -> serial_of t2 n2 = serial ->
  pick_title e1 = Ok title -> title <> "" ->
  (forall e t n t0, In e before -> passes_filters e t n -> serial_of t n = serial ->
                    pick_title e = Ok t0 -> t0 = "") ->
  (forall fuel, length visited <= fuel ->
     build_ps2_title_mapping fuel w =
       ({| world := w'; requests := map fst visited; outcome := Some (Ok st') |},
        [Scanning; Found (size (mapping st'))], Some (Ok (mapping st')))) /\
  mapping st' !! serial = Some title /\
  exists s_mid,
    process_entries build_init (before ++ e1 :: middle) = Ok s_mid /\
    mapping s_mid !! serial = Some title /\
    process_entries build_init (before ++ e1 :: middle ++ [e2]) = Ok s_mid.
Proof.
  intros Hreach Hfalse Hess Hcat Hp1 Hs1 Hp2 Hs2 Ht1 Hne Hfirst.
  assert (He1 : entry_serial e1 = Ok (Some serial))
    by (apply entry_serial_fields; exists t1, n1; auto).
  assert (He2 : entry_serial e2 = Ok (Some serial))
    by (apply entry_serial_fields; exists t2, n2; auto).
  pose proof (reaches_entries _ _ _ _ _ _ _ ess Hreach Hess) as Hall.
  rewrite Hcat in Hall.
  apply process_entries_app_inv in Hall as (s_b & Hbefore & Hall).
  cbn [process_entries] in Hall.
  assert (Hnew : serial ∉ seen_ids s_b).
  { refine (process_entries_unseen before build_init s_b serial (not_elem_of_empty _) _ Hbefore).
    intros e t0 Hin Hser Ht0.
    apply entry_serial_fields in Hser as (t & n & Hpass & Hser).
    exact (Hfirst e t n t0 Hin Hpass (eq_sym Hser) Ht0). }
  pose proof (process_entry_records s_b e1 serial title He1 Hnew Ht1 Hne) as Hstep1.
  rewrite Hstep1 in Hall. cbn [rbind Ok] in Hall.
  apply process_entries_app_inv in Hall as (s_mid & Hmiddle & Hall).
  assert (Hseen1 : serial ∈ seen_ids {| mapping := <[serial := title]> (mapping s_b);
                                        seen_ids := {[serial]} ∪ seen_ids s_b |})
    by (cbn; set_solver).
  destruct (process_entries_keeps _ _ middle serial Hseen1 Hmiddle) as [Hseen_mid Hmap_mid].
  cbn [mapping] in Hmap_mid. rewrite lookup_insert_eq in Hmap_mid.
  pose proof (process_entry_drops s_mid e2 serial He2 Hseen_mid) as Hstep2.
  cbn [process_entries] in Hall. rewrite Hstep2 in Hall. cbn [rbind Ok] in Hall.
  destruct (process_entries_keeps _ _ after serial Hseen_mid Hall) as [_ Hmap_end].
  assert (Hprefix : process_entries build_init (before ++ e1 :: middle) = Ok s_mid).
  { rewrite process_entries_app, Hbefore. cbn [rbind Ok process_entries].
    rewrite Hstep1. cbn [rbind Ok]. exact Hmiddle. }
  split; [|split; [congruence|]].
  - intros fuel Hfuel.
    assert (Hloop : fetch_loop fuel w [] (JStr START_URL) build_init =
              {| world := w'; requests := map fst visited; outcome := Some (Ok st') |}).
    { replace fuel with (length visited + (fuel - length visited)) by lia.
      rewrite (fetch_loop_reaches _ _ _ _ _ _ _ Hreach).
      destruct (fuel - length visited); cbn [fetch_loop]; rewrite Hfalse; reflexivity. }
    unfold build_ps2_title_mapping. rewrite Hloop. reflexivity.
  - exists s_mid. split; [exact Hprefix|]. split; [exact Hmap_mid|].
    replace (before ++ e1 :: middle ++ [e2])%list with ((before ++ e1 :: middle) ++ [e2])%list
      by (rewrite <- app_assoc; reflexivity).
    rewrite process_entries_app, Hprefix. cbn [rbind Ok process_entries].
    rewrite Hstep2. reflexivity.
Qed.

End RecordedInFull.


Ltac solve_passes :=
  unfold passes_filters, field_text, as_text;
  repeat (first [split | eexists]); try reflexivity; try (vm_compute; discriminate).

Lemma recorded_keys_and_titles_witness :
  let entry := catalog_entry "PlayStation 2" "game" " SCUS " "12345" "Example Game" in
  let site := {| site_pages := [(START_URL, page [entry] JNull)] |} in
  recorded_shape "SCUS-12345" "Example Game" /\
  exists visited url' st',
    reaches site (JStr START_URL) build_init visited
      (world (fetch_loop 1 site [] (JStr START_URL) build_init)) url' st' /\
    requests (fetch_loop 1 site [] (JStr START_URL) build_init) = map fst visited /\
    mapping st' = {["SCUS-12345" := "Example Game"]} /\
    exists u data entry t_type t_num,
      In (u, data) visited /\ page_entry data entry /\
      passes_filters entry t_type t_num /\
      "SCUS-12345" = PyStr.strip t_type ++ "-" ++ PyStr.strip t_num /\
      pick_title entry = Ok "Example Game".
Proof.
  intros entry site.
  refine (recorded_keys_and_titles (W := static_site) 1 site
            (fetch_loop 1 site [] (JStr START_URL) build_init) [Scanning; Found 1]
            {["SCUS-12345" := "Example Game"]} _ "SCUS-12345" "Example Game" _).
  - vm_compute. reflexivity.
  - apply lookup_singleton_eq.
Defined.

Lemma first_occurrence_wins_witness :
  let e0 := catalog_entry "PlayStation 2" "game" "SCUS" "12345" "   " in
  let e1 := catalog_entry "PlayStation 2" "Game" " SCUS" "12345 " "First" in
  let e2 := catalog_entry "PlayStation 2" "game" "SCUS" "12345" "Second" in
  let p1 := page [e0; e1] (JStr "https://api.serialstation.com/titles/?page=2") in
  let p2 := page [e2] JNull in
  let site := {| site_pages :=
                   [(START_URL, p1);
                    ("https://api.serialstation.com/titles/?page=2", p2)] |} in
  exists m, snd (build_ps2_title_mapping 2 site) = Some (Ok m) /\
            m !! "SCUS-12345" = Some "First".
Proof.
  intros e0 e1 e2 p1 p2 site.
  assert (Hreach : exists st',
            reaches site (JStr START_URL) build_init
              [(START_URL, p1); ("https://api.serialstation.com/titles/?page=2", p2)]
              site JNull st').
  { eexists.
    eapply reaches_step; [discriminate | reflexivity | vm_compute; reflexivity |].
    eapply reaches_step; [discriminate | reflexivity | vm_compute; reflexivity |].
    apply reaches_here. }
  destruct Hreach as (st' & Hreach).
  destruct (first_occurrence_wins (W := static_site) site site JNull st'
              [(START_URL, p1); ("https://api.serialstation.com/titles/?page=2", p2)]
              [[e0; e1]; [e2]] [e0] [] [] e1 e2 " SCUS" "12345 " "SCUS" "12345"
              "SCUS-12345" "First" Hreach eq_refl)
    as (Hbuild & Hlook & _).
  - repeat constructor; eexists; split; reflexivity.
  - reflexivity.
  - solve_passes.
  - reflexivity.
  - solve_passes.
  - reflexivity.
  - reflexivity.
  - discriminate.
  - intros e t n t0 [<- | []] _ _ Ht0. vm_compute in Ht0. injection Ht0 as <-. reflexivity.
  - exists (mapping st'). rewrite (Hbuild 2 (le_n 2)). split; [reflexivity|exact Hlook].
Defined.

(** ** Keys and candidate codes that end in a newline *)

Section NewlineCodes.
Context {W : Type} `{Network W}.

(** X15.  No key of a mapping the builder returns ends in white space.  So
    a candidate code that ends in a newline, which the pattern's [$]
    accepts after a serial code, is never a key, and a regular file with
    such a code is reported as not found. *)
Theorem newline_code_is_no_key {FS : Type} `{FileSystem FS}
    (fuel : nat) (w : W) (b : builder W) (out : list event) (m : gmap string string) :
  build_ps2_title_mapping fuel w = (b, out, Some (Ok m)) ->
  (forall code title c, m !! code = Some title -> PyStr.last code = Some c ->
                        PyStr.isspace c = false) /\
  (forall body, m !! (body ++ nl) = None) /\
  (forall (fs : FS) (printed_before : list event) (name body : string),
     is_file fs name = true -> candidate_code name = body ++ nl -> serial_form body ->
     rename_one m fs printed_before name =
       {| disk := fs; printed := printed_before ++ [NotFound (body ++ nl) name];
          raised := None |}).
Proof.
  unfold build_ps2_title_mapping.
  destruct (outcome (fetch_loop fuel w [] (JStr START_URL) build_init))
    as [[e|st]|] eqn:Hloop; try discriminate.
  intros [= _ _ <-].
  assert (Hlast : forall code title c, mapping st !! code = Some title ->
                    PyStr.last code = Some c -> PyStr.isspace c = false).
  { intros code title c Hlook.
    refine (fetch_loop_invariant
      (fun s => forall k t, mapping s !! k = Some t ->
                            forall c, PyStr.last k = Some c -> PyStr.isspace c = false)
      _ fuel w [] (JStr START_URL) build_init st _ Hloop code title Hlook c).
    - intros s entry s' Hs Hstep k t.
      destruct (process_entry_cases _ _ _ Hstep) as [-> | (k' & t' & Hk & _ & _ & _ & ->)];
        [apply Hs|].
      cbn. intros Hin. apply lookup_insert_Some in Hin as [[<- <-] | [_ Hold]];
        [|exact (Hs _ _ Hold)].
      destruct (entry_serial_shape _ _ Hk) as (ty & num & -> & _ & Hnum & _ & [_ Hl]).
      intros c0. rewrite !last_append; [apply Hl|exact Hnum|].
      apply append_not_empty. discriminate.
    - intros k t Hk. cbn in Hk. rewrite lookup_empty in Hk. discriminate. }
  assert (Hnokey : forall body, mapping st !! (body ++ nl) = None).
  { intros body. destruct (mapping st !! (body ++ nl)) as [title|] eqn:Hlook; [|reflexivity].
    specialize (Hlast _ title Re.newline Hlook).
    rewrite last_append in Hlast by discriminate.
    specialize (Hlast eq_refl). discriminate Hlast. }
  split; [exact Hlast|]. split; [exact Hnokey|].
  intros fs printed_before name body Hfile Hcode Hbody.
  unfold rename_one. rewrite Hfile, Hcode. cbn [negb].
  assert (Hmatch : Re.re_match serial_re (body ++ nl) = true)
    by (apply serial_re_match; right; exists body; auto).
  rewrite Hmatch, Hnokey. reflexivity.
Qed.

End NewlineCodes.

Lemma newline_code_is_no_key_witness :
  let name := "SCUS-12345" ++ nl ++ ".iso" in
  let d := {| folder_entries := [(name, true)] |} in
  rename_one ({["SCUS-12345" := "Example Game"]} : gmap string string) d [] name =
    {| disk := d; printed := [NotFound ("SCUS-12345" ++ nl) name]; raised := None |}.
Proof.
  intros name d.
  pose (site := {| site_pages :=
         [(START_URL,
           page [catalog_entry "PlayStation 2" "game" "SCUS" "12345" "Example Game"] JNull)] |}).
  refine (proj2 (proj2 (newline_code_is_no_key (W := static_site) 1 site
    (fetch_loop 1 site [] (JStr START_URL) build_init) [Scanning; Found 1]
    {["SCUS-12345" := "Example Game"]} _)) d [] name "SCUS-12345" _ _ _).
  - vm_compute. reflexivity.
  - reflexivity.
  - vm_compute. reflexivity.
  - exists "SCUS", "12345". repeat split; reflexivity.
Defined.
